(** * py-datastore: datastores, shims, tiered and sharded collections

    A shallow embedding of [datastore/basic.py] (the legacy, synchronous
    object store API, where absence is the value [None]) and of
    [datastore/core/binarystore.py] (the asynchronous binary store API, where
    absence is the exception [KeyError]), followed by the properties of the
    composition layer.

    Python objects live in a heap [W]; a method is a function from the heap
    to an outcome, which is either a returned value or a raised exception,
    both together with the heap the call leaves behind. *)

From stdpp Require Import gmap strings list fin_maps.
From Stdlib Require Import ZArith Lia Permutation Sorted.

Local Open Scope Z_scope.

(** ** Exceptions and the heap-passing monad *)

(** The exception classes the two modules raise or catch. *)
Inductive exn : Type :=
  | KeyError
  | RuntimeError
  | TypeError
  | IndexError
  | ZeroDivisionError
  | NotImplementedError.

#[global] Instance exn_eq_dec : EqDecision exn.
Proof. solve_decision. Defined.

Inductive outcome (W A : Type) : Type :=
  | Ret (a : A) (w : W)
  | Raise (e : exn) (w : W).

Arguments Ret {W A} a w.
Arguments Raise {W A} e w.

Definition M (W A : Type) : Type := W -> outcome W A.

Definition ret {W A} (a : A) : M W A := fun w => Ret a w.

Definition raise {W A} (e : exn) : M W A := fun w => Raise e w.

Definition bind {W A B} (m : M W A) (k : A -> M W B) : M W B :=
  fun w => match m w with
           | Ret a w' => k a w'
           | Raise e w' => Raise e w'
           end.

(** [try: body / except KeyError: handler]. *)
Definition try_except_KeyError {W A} (body handler : M W A) : M W A :=
  fun w => match body w with
           | Raise KeyError w' => handler w'
           | r => r
           end.

Declare Scope py_scope.
Delimit Scope py_scope with py.
Notation "x <~ c ;; k" := (bind c (fun x => k))
  (at level 100, c at next level, right associativity) : py_scope.
Notation "c ;;; k" := (bind c (fun _ => k))
  (at level 100, right associativity) : py_scope.
Local Open Scope py_scope.

(** The final heap of an outcome, whichever way the call ended. *)
Definition heap_of {W A} (r : outcome W A) : W :=
  match r with Ret _ w => w | Raise _ w => w end.

(** A method of an object whose state is the heap cell [id], run on the
    whole heap. *)
Definition on_object {S A} (id : nat) (m : M S A) : M (gmap nat S) A :=
  fun heap =>
    match heap !! id with
    | Some state =>
        match m state with
        | Ret a state' => Ret a (<[id := state']> heap)
        | Raise e state' => Raise e (<[id := state']> heap)
        end
    | None => Raise RuntimeError heap
    end.

(** ** Keys *)

(** Modelled from the spec: [key.py] is not among the sources.  A key is a
    [/]-delimited path; [path] is all segments but the last and the string
    form is the canonical [/a/b/c]. *)
Abbreviation Key := (list string).

(** Modelled from the spec: [key.path], the parent namespace of a key. *)
Definition path (key : Key) : Key := removelast key.

(** Modelled from the spec: [str(key)], the canonical string of a key. *)
Definition str (key : Key) : string :=
  match key with
  | [] => "/"
  | _ => String.concat "" (map (fun s => "/" +:+ s) key)
  end.

(** ** Queries and cursors *)

(** Modelled from the spec: [query.py] is not among the sources.  A query
    holds a target namespace, filter predicates, sort keys, an offset and an
    optional limit; a sort key is given by its "not after" test. *)
Record Query (V : Type) : Type := mkQuery {
  q_key : Key;
  q_filters : list (V -> bool);
  q_orders : list (V -> V -> bool);
  q_offset : Z;
  q_limit : option Z
}.

Arguments mkQuery {V} _ _ _ _ _.
Arguments q_key {V} _.
Arguments q_filters {V} _.
Arguments q_orders {V} _.
Arguments q_offset {V} _.
Arguments q_limit {V} _.

(** Modelled from the spec: the query after [query.offset = o], every
    other attribute as it was. *)
Definition with_offset {V} (q : Query V) (o : Z) : Query V :=
  mkQuery (q_key q) (q_filters q) (q_orders q) o (q_limit q).

(** Modelled from the spec: the query after [query.limit = l]. *)
Definition with_limit {V} (q : Query V) (l : option Z) : Query V :=
  mkQuery (q_key q) (q_filters q) (q_orders q) (q_offset q) l.

(** Modelled from the spec: a cursor once it has been consumed to its end:
    the items it produced and its two counters. *)
Record Cursor (V : Type) : Type := mkCursor {
  c_items : list V;
  c_skipped : Z;
  c_returned : Z
}.

Arguments mkCursor {V} _ _ _.
Arguments c_items {V} _.
Arguments c_skipped {V} _.
Arguments c_returned {V} _.

(** Modelled from the spec: comparison by the sort keys in turn; the first
    key that tells the two items apart decides. *)
Fixpoint lex_le {V} (orders : list (V -> V -> bool)) (x y : V) : bool :=
  match orders with
  | [] => true
  | o :: rest => if o x y && o y x then lex_le rest x y else o x y
  end.

(** Modelled from the spec: the sort of the reorder pass, a stable
    insertion sort. *)
Fixpoint insert_sorted {V} (le : V -> V -> bool) (x : V) (l : list V) : list V :=
  match l with
  | [] => [x]
  | y :: r => if le x y then x :: y :: r else y :: insert_sorted le x r
  end.

(** Modelled from the spec: the list sorted by [le]. *)
Definition sorted_by {V} (le : V -> V -> bool) (l : list V) : list V :=
  foldr (insert_sorted le) [] l.

(** Modelled from the spec: [Cursor.apply_order], the reorder pass that
    materialises and sorts the result set when the query has sort keys. *)
Definition apply_order {V} (q : Query V) (l : list V) : list V :=
  match q_orders q with
  | [] => l
  | _ => sorted_by (lex_le (q_orders q)) l
  end.

(** Modelled from the spec: [Cursor.apply_filter], the items that pass every
    filter of the query. *)
Definition apply_filter {V} (q : Query V) (l : list V) : list V :=
  filter (fun x => forallb (fun f => f x) (q_filters q) = true) l.

(** Modelled from the spec: a query applied to an iterable
    ([Query.__call__]): filter, order, offset, limit, in that order; the
    counters say how many items the offset dropped and how many came out. *)
Definition run_query {V} (q : Query V) (iterable : list V) : Cursor V :=
  let matching := apply_order q (apply_filter q iterable) in
  let after_offset := drop (Z.to_nat (q_offset q)) matching in
  let produced :=
    match q_limit q with
    | None => after_offset
    | Some l => take (Z.to_nat l) after_offset
    end in
  mkCursor produced
           (Z.of_nat (length matching - length after_offset)%nat)
           (Z.of_nat (length produced)).

(** ** Python dict primitives on a dict of dicts

    [_items] maps a namespace string to a collection, a collection maps keys
    to values.  A collection dict is handed around by reference; the model
    refers to it by its name in [_items].  The order in which the dicts
    enumerate their entries is not tracked. *)

Module pydict.
Section Primitives.
Context {V : Type}.

Abbreviation items := (gmap string (gmap Key V)).

(** [self._items[collection][key]] *)
Definition getitem (collection : string) (key : Key) : M items V :=
  fun _items =>
    match _items !! collection ≫= (.!! key) with
    | Some value => Ret value _items
    | None => Raise KeyError _items
    end.

(** [self._items[collection][key] = value] *)
Definition setitem (collection : string) (key : Key) (value : V) : M items unit :=
  fun _items =>
    match _items !! collection with
    | Some c => Ret tt (<[collection := <[key := value]> c]> _items)
    | None => Raise KeyError _items
    end.

(** [del self._items[collection][key]] *)
Definition delitem (collection : string) (key : Key) : M items unit :=
  fun _items =>
    match _items !! collection with
    | Some c =>
        match c !! key with
        | Some _ => Ret tt (<[collection := delete key c]> _items)
        | None => Raise KeyError _items
        end
    | None => Raise KeyError _items
    end.

(** [key in self._items[collection]] *)
Definition has_key (collection : string) (key : Key) : M items bool :=
  fun _items =>
    match _items !! collection with
    | Some c => Ret (bool_decide (is_Some (c !! key))) _items
    | None => Raise KeyError _items
    end.

(** [len(self._items[collection])] *)
Definition len (collection : string) : M items nat :=
  fun _items =>
    match _items !! collection with
    | Some c => Ret (size c) _items
    | None => Raise KeyError _items
    end.

(** [del self._items[name]] *)
Definition del_collection (name : string) : M items unit :=
  fun _items =>
    match _items !! name with
    | Some _ => Ret tt (delete name _items)
    | None => Raise KeyError _items
    end.

End Primitives.
End pydict.

(** ** [datastore/basic.py] *)

Module basic.

(** An instance of a [Datastore] subclass living in a heap [W]: its identity
    ([id(self)]) and its bound methods.  A legacy [get] returns [None] for an
    absent key, and [put] accepts [None] as a value. *)
Record Datastore (W V : Type) : Type := mkDatastore {
  oid : nat;
  get : Key -> M W (option V);
  put : Key -> option V -> M W unit;
  delete : Key -> M W unit;
  query : Query V -> M W (Cursor V);
  contains : Key -> M W bool
}.

Arguments mkDatastore {W V} _ _ _ _ _ _.
Arguments oid {W V} _.
Arguments get {W V} _ _ _.
Arguments put {W V} _ _ _ _.
Arguments delete {W V} _ _ _.
Arguments query {W V} _ _ _.
Arguments contains {W V} _ _ _.

(** [Datastore.contains], the default: [self.get(key) is not None]. *)
Definition Datastore_contains {W V} (self_get : Key -> M W (option V))
    (key : Key) : M W bool :=
  value <~ self_get key ;;
  ret (match value with Some _ => true | None => false end).

(** [store == store2]: no class of the module defines [__eq__] or [__cmp__],
    so the comparison is Python's default one, of the objects' identities. *)
Definition store_eq {W V} (store store2 : Datastore W V) : bool :=
  Nat.eqb (oid store) (oid store2).

(** *** [DictDatastore] *)

Module DictDatastore.
Section Methods.
Context {V : Type}.

Import pydict.

Abbreviation items := (gmap string (gmap Key V)).

Definition _collection (key : Key) : M items string :=
  fun _items =>
    let collection := str (path key) in
    match _items !! collection with
    | None => Ret collection (<[collection := ∅]> _items)
    | Some _ => Ret collection _items
    end.

Definition get (key : Key) : M items (option V) :=
  try_except_KeyError
    (c <~ _collection key ;; value <~ getitem c key ;; ret (Some value))
    (ret None).

Definition delete (key : Key) : M items unit :=
  try_except_KeyError
    (c <~ _collection key ;;
     delitem c key ;;;
     c' <~ _collection key ;;
     n <~ len c' ;;
     if Nat.eqb n 0 then del_collection (str (path key)) else ret tt)
    (ret tt).

Definition put (key : Key) (value : option V) : M items unit :=
  match value with
  | None => delete key
  | Some v => c <~ _collection key ;; setitem c key v
  end.

Definition contains (key : Key) : M items bool :=
  c <~ _collection key ;; has_key c key.

Definition query (q : Query V) : M items (Cursor V) :=
  fun _items =>
    match _items !! str (q_key q) with
    | Some c => Ret (run_query q (map_to_list c).*2) _items
    | None => Ret (run_query q []) _items
    end.

(** [__len__] *)
Definition __len__ (_items : items) : nat :=
  map_fold (fun _ c n => (size c + n)%nat) 0%nat _items.

End Methods.

(** The instance whose [_items] is the heap cell [id]. *)
Definition new {V} (id : nat)
    : Datastore (gmap nat (gmap string (gmap Key V))) V :=
  mkDatastore id
    (fun key => on_object id (get key))
    (fun key value => on_object id (put key value))
    (fun key => on_object id (delete key))
    (fun q => on_object id (query q))
    (fun key => on_object id (contains key)).

End DictDatastore.

(** *** [ShimDatastore] *)

Module ShimDatastore.
Section Methods.
Context {W V : Type}.
Variable child_datastore : Datastore W V.

Definition get (key : Key) : M W (option V) :=
  basic.get child_datastore key.

Definition put (key : Key) (value : option V) : M W unit :=
  basic.put child_datastore key value.

Definition delete (key : Key) : M W unit :=
  basic.delete child_datastore key.

Definition query (q : Query V) : M W (Cursor V) :=
  basic.query child_datastore q.

(** The class defines no [contains]: the one of [Datastore] is inherited. *)
Definition contains : Key -> M W bool := Datastore_contains get.

End Methods.

Definition new {W V} (id : nat) (datastore : Datastore W V) : Datastore W V :=
  mkDatastore id (get datastore) (put datastore) (delete datastore)
              (query datastore) (contains datastore).

End ShimDatastore.

(** *** [DatastoreCollection]: the registry of member stores

    The member list is a Python list object, shared by everything that
    holds a reference to it.  The heap below holds the list objects; the
    members are references to other objects. *)

Module DatastoreCollection.

(** A reference to an object, with what [isinstance(_, Datastore)] answers
    for it. *)
Inductive pyobj : Type :=
  | datastore_ref (id : nat)
  | other_ref (id : nat).

Definition isinstance_Datastore (o : pyobj) : bool :=
  match o with datastore_ref _ => true | other_ref _ => false end.

Record pyheap : Type := mkHeap {
  lists : gmap nat (list pyobj);
  fresh : nat
}.

(** The [stores] argument: a list object, or some other iterable. *)
Inductive stores_arg : Type :=
  | list_object (loc : nat)
  | iterable (elems : list pyobj).

(** [list(stores)]: a new list object. *)
Definition list_copy (elems : list pyobj) : M pyheap nat :=
  fun h => Ret (fresh h) (mkHeap (<[fresh h := elems]> (lists h)) (S (fresh h))).

Definition list_read (loc : nat) : M pyheap (list pyobj) :=
  fun h => match lists h !! loc with
           | Some l => Ret l h
           | None => Raise RuntimeError h
           end.

(** [l.append(x)] *)
Definition list_append (loc : nat) (x : pyobj) : M pyheap unit :=
  fun h => match lists h !! loc with
           | Some l => Ret tt (mkHeap (<[loc := l ++ [x]]> (lists h)) (fresh h))
           | None => Raise RuntimeError h
           end.

(** [l.insert(index, x)], for an index within the list *)
Definition list_insert_at (loc : nat) (index : nat) (x : pyobj) : M pyheap unit :=
  fun h => match lists h !! loc with
           | Some l => Ret tt (mkHeap (<[loc := take index l ++ x :: drop index l]>
                                         (lists h)) (fresh h))
           | None => Raise RuntimeError h
           end.

(** The instance: its one attribute refers to the member list. *)
Record instance : Type := mkInstance { _stores : nat }.

(** The list object the [def] statement of [DatastoreCollection.__init__]
    evaluated [stores=[]] to, and the one of [ShardedDatastore.__init__]:
    each is created once, when the class body runs. *)
Definition DatastoreCollection_default_stores : nat := 0%nat.
Definition ShardedDatastore_default_stores : nat := 1%nat.

(** The heap once the module has been imported. *)
Definition module_heap : pyheap :=
  mkHeap (<[DatastoreCollection_default_stores := []]>
            (<[ShardedDatastore_default_stores := []]> ∅)) 2.

Definition __init__ (stores : stores_arg) : M pyheap instance :=
  loc <~ match stores with
         | list_object loc => ret loc
         | iterable elems => list_copy elems
         end ;;
  members <~ list_read loc ;;
  if forallb isinstance_Datastore members
  then ret (mkInstance loc)
  else raise TypeError.

(** [DatastoreCollection()], the argument left to its default. *)
Definition __init__default : M pyheap instance :=
  __init__ (list_object DatastoreCollection_default_stores).

(** [ShardedDatastore()]: its own default is passed on to the base class. *)
Definition ShardedDatastore__init__default : M pyheap instance :=
  __init__ (list_object ShardedDatastore_default_stores).

Definition datastore (self : instance) (index : nat) : M pyheap pyobj :=
  members <~ list_read (_stores self) ;;
  match members !! index with
  | Some store => ret store
  | None => raise IndexError
  end.

Definition appendDatastore (self : instance) (store : pyobj) : M pyheap unit :=
  if isinstance_Datastore store
  then list_append (_stores self) store
  else raise TypeError.

Definition insertDatastore (self : instance) (index : nat) (store : pyobj)
    : M pyheap unit :=
  if isinstance_Datastore store
  then list_insert_at (_stores self) index store
  else raise TypeError.

End DatastoreCollection.

(** *** [TieredDatastore] *)

Module TieredDatastore.
Section Methods.
Context {W V : Type}.

(** The first loop of [get]: the store that answered and its value, or
    nothing when every store answered [None]. *)
Fixpoint first_found (stores : list (Datastore W V)) (key : Key)
    : M W (option (Datastore W V * V)) :=
  match stores with
  | [] => ret None
  | store :: rest =>
      value <~ basic.get store key ;;
      match value with
      | Some v => ret (Some (store, v))
      | None => first_found rest key
      end
  end.

(** The second loop of [get]: [store] is the one the first loop stopped
    at. *)
Fixpoint add_to_lower (store : Datastore W V) (stores : list (Datastore W V))
    (key : Key) (value : V) : M W unit :=
  match stores with
  | [] => ret tt
  | store2 :: rest =>
      if store_eq store store2 then ret tt
      else basic.put store2 key (Some value) ;;; add_to_lower store rest key value
  end.

Variable _stores : list (Datastore W V).

Definition get (key : Key) : M W (option V) :=
  found <~ first_found _stores key ;;
  match found with
  | Some (store, value) =>
      add_to_lower store _stores key value ;;; ret (Some value)
  | None => ret None
  end.

Fixpoint put_loop (stores : list (Datastore W V)) (key : Key)
    (value : option V) : M W unit :=
  match stores with
  | [] => ret tt
  | store :: rest => basic.put store key value ;;; put_loop rest key value
  end.

Definition put (key : Key) (value : option V) : M W unit :=
  put_loop _stores key value.

Fixpoint delete_loop (stores : list (Datastore W V)) (key : Key) : M W unit :=
  match stores with
  | [] => ret tt
  | store :: rest => basic.delete store key ;;; delete_loop rest key
  end.

Definition delete (key : Key) : M W unit := delete_loop _stores key.

Fixpoint contains_loop (stores : list (Datastore W V)) (key : Key) : M W bool :=
  match stores with
  | [] => ret false
  | store :: rest =>
      found <~ basic.contains store key ;;
      if found then ret true else contains_loop rest key
  end.

Definition contains (key : Key) : M W bool := contains_loop _stores key.

Definition query (q : Query V) : M W (Cursor V) :=
  match last _stores with
  | Some store => basic.query store q
  | None => raise IndexError
  end.

End Methods.

Definition new {W V} (id : nat) (stores : list (Datastore W V)) : Datastore W V :=
  mkDatastore id (get stores) (put stores) (delete stores) (query stores)
              (contains stores).

(** [get] over stores of any class.  The test [store == store2] of the
    second loop is answered by the classes of the two objects: by their
    [__eq__] or [__cmp__] when they define one, by the identities of the
    objects otherwise.  [eq store store2] is the outcome of that test, as
    a call that may read the heap, change it, or fail. *)
Section Comparison.
Context {W V : Type}.
Variable eq : Datastore W V -> Datastore W V -> M W bool.

Fixpoint add_to_lower_by (store : Datastore W V)
    (stores : list (Datastore W V)) (key : Key) (value : V) : M W unit :=
  match stores with
  | [] => ret tt
  | store2 :: rest =>
      equal <~ eq store store2 ;;
      if equal then ret tt
      else basic.put store2 key (Some value) ;;;
           add_to_lower_by store rest key value
  end.

Definition get_by (_stores : list (Datastore W V)) (key : Key)
    : M W (option V) :=
  found <~ first_found _stores key ;;
  match found with
  | Some (store, value) =>
      add_to_lower_by store _stores key value ;;; ret (Some value)
  | None => ret None
  end.

End Comparison.

(** [==] on stores whose classes define neither [__eq__] nor [__cmp__], as
    the classes of the module: the two are the same object. *)
Definition default_eq {W V} (store store2 : Datastore W V) : M W bool :=
  ret (store_eq store store2).

End TieredDatastore.

(** *** [ShardedDatastore] *)

Module ShardedDatastore.
Section Methods.
Context {W V : Type}.

(** The truth value of [shard_query.limit]: [None] and [0] are false. *)
Definition limit_is_true (limit : option Z) : bool :=
  match limit with
  | Some l => negb (l =? 0)
  | None => false
  end.

(** The loop of [shard_query_generator], run to its end: the items it
    yields, in the order it yields them. *)
Fixpoint shard_query_loop (stores : list (Datastore W V))
    (shard_query : Query V) : M W (list V) :=
  match stores with
  | [] => ret []
  | shard :: rest =>
      cursor <~ basic.query shard shard_query ;;
      let shard_query :=
        with_offset shard_query
          (Z.max (q_offset shard_query - c_skipped cursor) 0) in
      if limit_is_true (q_limit shard_query) then
        let shard_query :=
          with_limit shard_query
            (Some (Z.max (default 0 (q_limit shard_query) - c_returned cursor) 0)) in
        if default 0 (q_limit shard_query) <=? 0
        then ret (c_items cursor)
        else more <~ shard_query_loop rest shard_query ;;
             ret (c_items cursor ++ more)
      else
        more <~ shard_query_loop rest shard_query ;;
        ret (c_items cursor ++ more)
  end.

Variable _stores : list (Datastore W V).
Variable _shardingfn : Key -> Z.

Definition shard (key : Key) : M W nat :=
  match _stores with
  | [] => raise ZeroDivisionError
  | _ => ret (Z.to_nat (_shardingfn key `mod` Z.of_nat (length _stores)))
  end.

Definition shardDatastore (key : Key) : M W (Datastore W V) :=
  index <~ shard key ;;
  match _stores !! index with
  | Some store => ret store
  | None => raise IndexError
  end.

Definition get (key : Key) : M W (option V) :=
  store <~ shardDatastore key ;; basic.get store key.

Definition put (key : Key) (value : option V) : M W unit :=
  store <~ shardDatastore key ;; basic.put store key value.

Definition delete (key : Key) : M W unit :=
  store <~ shardDatastore key ;; basic.delete store key.

Definition contains (key : Key) : M W bool :=
  store <~ shardDatastore key ;; basic.contains store key.

Definition shard_query_generator (q : Query V) : M W (list V) :=
  shard_query_loop _stores q.

(** The cursor over the generator, after [apply_order], consumed to its
    end. *)
Definition query (q : Query V) : M W (Cursor V) :=
  items <~ shard_query_generator q ;;
  ret (mkCursor (apply_order q items) 0
                (Z.of_nat (length (apply_order q items)))).

End Methods.

(** [ShardedDatastore(stores, shardingfn)], as the object with identity
    [id]. *)
Definition new {W V} (id : nat) (stores : list (Datastore W V))
    (shardingfn : Key -> Z) : Datastore W V :=
  mkDatastore id (get stores shardingfn) (put stores shardingfn)
              (delete stores shardingfn) (query stores)
              (contains stores shardingfn).

End ShardedDatastore.

(** *** [InterfaceMappingDatastore] *)

Module InterfaceMappingDatastore.
Section Methods.
Context {W SK V : Type}.

(** An attribute of the service object: a bound method taking one argument
    or two.  What a method returns is an object or [None]. *)
Inductive attribute : Type :=
  | method1 (f : SK -> M W (option V))
  | method2 (f : SK -> option V -> M W (option V)).

(** [op(key)] and [op(key, value)]: a call with the wrong number of
    arguments raises [TypeError]. *)
Definition call1 (op : attribute) (key : SK) : M W (option V) :=
  match op with
  | method1 f => f key
  | method2 _ => raise TypeError
  end.

Definition call2 (op : attribute) (key : SK) (value : option V)
    : M W (option V) :=
  match op with
  | method2 f => f key value
  | method1 _ => raise TypeError
  end.

(** The instance: the key conversion and the dict [_service_ops]. *)
Record instance : Type := mkInstance {
  _service_key : Key -> SK;
  _service_ops : gmap string attribute
}.

(** What the constructor call ends in: the instance, or the
    [AttributeError] that [getattr] raised for a name. *)
Inductive constructed : Type :=
  | built (self : instance)
  | AttributeError (name : string).

(** The service is its attributes by name; [getattr(service, name)] is the
    lookup. *)
Definition __init__ (service : gmap string attribute)
    (get put delete : string) (key : Key -> SK) : constructed :=
  match service !! get with
  | None => AttributeError get
  | Some get_op =>
      let _service_ops := <["get" := get_op]> ∅ in
      match service !! put with
      | None => AttributeError put
      | Some put_op =>
          let _service_ops := <["put" := put_op]> _service_ops in
          match service !! delete with
          | None => AttributeError delete
          | Some delete_op =>
              built (mkInstance key (<["delete" := delete_op]> _service_ops))
          end
      end
  end.

(** [self._service_ops[name]] *)
Definition service_op (self : instance) (name : string) : M W attribute :=
  match _service_ops self !! name with
  | Some op => ret op
  | None => raise KeyError
  end.

Definition get (self : instance) (key : Key) : M W (option V) :=
  let key := _service_key self key in
  op <~ service_op self "get" ;; call1 op key.

Definition put (self : instance) (key : Key) (value : option V) : M W unit :=
  let key := _service_key self key in
  op <~ service_op self "put" ;; call2 op key value ;;; ret tt.

Definition delete (self : instance) (key : Key) : M W unit :=
  let key := _service_key self key in
  op <~ service_op self "delete" ;; call1 op key ;;; ret tt.

End Methods.
End InterfaceMappingDatastore.

End basic.

(** ** Binary streams *)

(** Modelled from the spec: [util/stream.py] is not among the sources.  A
    receive stream is known by the bytes it yields; it is built from a raw
    buffer or from a stream, and [collect] drains it into one buffer. *)
Module stream.

(** Modelled from the spec: a stream, known by the bytes it yields. *)
Inductive ReceiveStream (B : Type) : Type :=
  | stream_of (data : B).

Arguments stream_of {B} data.

(** Modelled from the spec: what [put] accepts, a raw buffer or a stream. *)
Inductive ArbitraryReceiveStream (B : Type) : Type :=
  | raw (data : B)
  | wrapped (s : ReceiveStream B).

Arguments raw {B} data.
Arguments wrapped {B} s.

(** Modelled from the spec: the one stream type both are normalised to. *)
Definition receive_stream_from {B} (value : ArbitraryReceiveStream B)
    : ReceiveStream B :=
  match value with
  | raw data => stream_of data
  | wrapped s => s
  end.

(** Modelled from the spec: [collect] drains the stream into one buffer. *)
Definition collect {W B} (s : ReceiveStream B) : M W B :=
  match s with stream_of data => ret data end.

(** Modelled from the spec: closing a stream releases it and returns. *)
Definition aclose {W B} (s : ReceiveStream B) : M W unit := ret tt.

End stream.

(** ** [datastore/core/binarystore.py] *)

Module binarystore.

Import stream.

(** An instance of a binary [Datastore] subclass in a heap [W].  [put] is
    the one method no class overrides; it is [Datastore_put] below. *)
Record Datastore (W B : Type) : Type := mkDatastore {
  oid : nat;
  get : Key -> M W (ReceiveStream B);
  _put : Key -> ReceiveStream B -> M W unit;
  delete : Key -> M W unit;
  query : Query B -> M W (Cursor B);
  contains : Key -> M W bool
}.

Arguments mkDatastore {W B} _ _ _ _ _ _.
Arguments oid {W B} _.
Arguments get {W B} _ _ _.
Arguments _put {W B} _ _ _ _.
Arguments delete {W B} _ _ _.
Arguments query {W B} _ _ _.
Arguments contains {W B} _ _ _.

(** [Datastore.put] *)
Definition Datastore_put {W B} (self : Datastore W B) (key : Key)
    (value : ArbitraryReceiveStream B) : M W unit :=
  _put self key (receive_stream_from value).

(** [Datastore.contains], the default; [aclose] closes the stream [get]
    returned. *)
Definition Datastore_contains {W B}
    (aclose : ReceiveStream B -> M W unit)
    (self_get : Key -> M W (ReceiveStream B)) (key : Key) : M W bool :=
  try_except_KeyError
    (s <~ self_get key ;; aclose s ;;; ret true)
    (ret false).

(** *** [NullDatastore] *)

Module NullDatastore.
Section Methods.
Context {W B : Type}.

Definition get (key : Key) : M W (ReceiveStream B) := raise KeyError.

Definition _put (key : Key) (value : ReceiveStream B) : M W unit := ret tt.

Definition delete (key : Key) : M W unit := ret tt.

Definition query (q : Query B) : M W (Cursor B) := ret (run_query q []).

Definition contains : Key -> M W bool := Datastore_contains aclose get.

End Methods.

(** [NullDatastore()], as the object with identity [id]. *)
Definition new {W B} (id : nat) : Datastore W B :=
  mkDatastore id get _put delete query (contains (B := B)).

End NullDatastore.

(** *** [DictDatastore] *)

Module DictDatastore.
Section Methods.
Context {B : Type}.

Import pydict.

Abbreviation items := (gmap string (gmap Key B)).

Definition _collection (key : Key) : M items string :=
  fun _items =>
    let collection := str (path key) in
    match _items !! collection with
    | None => Ret collection (<[collection := ∅]> _items)
    | Some _ => Ret collection _items
    end.

Definition get (key : Key) : M items (ReceiveStream B) :=
  c <~ _collection key ;;
  data <~ getitem c key ;;
  ret (receive_stream_from (raw data)).

Definition _put (key : Key) (value : ReceiveStream B) : M items unit :=
  data <~ collect value ;;
  c <~ _collection key ;;
  setitem c key data.

Definition delete (key : Key) : M items unit :=
  c <~ _collection key ;;
  delitem c key ;;;
  c' <~ _collection key ;;
  n <~ len c' ;;
  if Nat.eqb n 0 then del_collection (str (path key)) else ret tt.

Definition contains (key : Key) : M items bool :=
  c <~ _collection key ;; has_key c key.

Definition query (q : Query B) : M items (Cursor B) :=
  fun _items =>
    match _items !! str (q_key q) with
    | Some c => Ret (run_query q (map_to_list c).*2) _items
    | None => Ret (run_query q []) _items
    end.

Definition __len__ (_items : items) : nat :=
  map_fold (fun _ c n => (size c + n)%nat) 0%nat _items.

End Methods.
End DictDatastore.

(** *** [Adapter] *)

Module Adapter.
Section Methods.
Context {W B : Type}.
Variable child_datastore : Datastore W B.

Definition get (key : Key) : M W (ReceiveStream B) :=
  binarystore.get child_datastore key.

Definition _put (key : Key) (value : ReceiveStream B) : M W unit :=
  Datastore_put child_datastore key (wrapped value).

Definition delete (key : Key) : M W unit :=
  binarystore.delete child_datastore key.

Definition contains (key : Key) : M W bool :=
  binarystore.contains child_datastore key.

Definition query (q : Query B) : M W (Cursor B) :=
  binarystore.query child_datastore q.

End Methods.

(** [Adapter(datastore)], as the object with identity [id]. *)
Definition new {W B} (id : nat) (datastore : Datastore W B) : Datastore W B :=
  mkDatastore id (get datastore) (_put datastore) (delete datastore)
              (query datastore) (contains datastore).

End Adapter.

End binarystore.

(** ** Vocabulary of the statements *)

Section Vocabulary.
Context {V : Type}.
Implicit Types (it : gmap string (gmap Key V)) (key : Key).

(** What a dict store holds under a key, read off its state without a
    call. *)
Definition stored it key : option V :=
  it !! str (path key) ≫= (.!! key).

(** The state with the namespace collection of [key] brought into being. *)
Definition with_collection key it : gmap string (gmap Key V) :=
  match it !! str (path key) with
  | Some _ => it
  | None => <[str (path key) := ∅]> it
  end.

End Vocabulary.

Section TierVocabulary.
Context {W V : Type}.
Implicit Types (stores : list (basic.Datastore W V)) (key : Key).

(** Every store of the list, first to last, took the [put] and returned;
    the heap went from [w] to [w']. *)
Inductive all_put key (value : option V)
    : list (basic.Datastore W V) -> W -> W -> Prop :=
  | all_put_nil w : all_put key value [] w w
  | all_put_cons store rest w w1 w2 :
      basic.put store key value w = Ret tt w1 ->
      all_put key value rest w1 w2 ->
      all_put key value (store :: rest) w w2.

(** Every store of the list, first to last, answered [None] to the [get];
    the heap went from [w] to [w']. *)
Inductive all_miss key : list (basic.Datastore W V) -> W -> W -> Prop :=
  | all_miss_nil w : all_miss key [] w w
  | all_miss_cons store rest w w1 w2 :
      basic.get store key w = Ret None w1 ->
      all_miss key rest w1 w2 ->
      all_miss key (store :: rest) w w2.

(** Every store of the list, first to last, compared unequal to [hit]
    and then took the [put] of the value; the heap went from [w] to
    [w']. *)
Inductive promoted
    (eq : basic.Datastore W V -> basic.Datastore W V -> M W bool)
    (hit : basic.Datastore W V) key (value : V)
    : list (basic.Datastore W V) -> W -> W -> Prop :=
  | promoted_nil w : promoted eq hit key value [] w w
  | promoted_cons store rest w w1 w2 w3 :
      eq hit store w = Ret false w1 ->
      basic.put store key (Some value) w1 = Ret tt w2 ->
      promoted eq hit key value rest w2 w3 ->
      promoted eq hit key value (store :: rest) w w3.

(** No store of the list is the instance [store]. *)
Definition other_instances (store : basic.Datastore W V) stores : Prop :=
  Forall (fun store2 => basic.oid store2 ≠ basic.oid store) stores.

(** A stub tier for tests: it holds nothing and refuses every write with
    the error [e]. *)
Definition refusing_store (id : nat) (e : exn) : basic.Datastore W V :=
  basic.mkDatastore id
    (fun _ => ret None)
    (fun _ _ => raise e)
    (fun _ => raise e)
    (fun q => ret (run_query q []))
    (fun _ => ret false).

(** A stub store for tests: every call on it fails with the error [e]. *)
Definition failing_store (id : nat) (e : exn) : basic.Datastore W V :=
  basic.mkDatastore id
    (fun _ => raise e)
    (fun _ _ => raise e)
    (fun _ => raise e)
    (fun _ => raise e)
    (fun _ => raise e).

End TierVocabulary.

Section ShardVocabulary.
Context {W V : Type}.

(** Python's [xs[o : o + l]], and [xs[o :]] when no limit is set. *)
Definition slice (o : Z) (l : option Z) (xs : list V) : list V :=
  match l with
  | None => drop (Z.to_nat o) xs
  | Some l => take (Z.to_nat l) (drop (Z.to_nat o) xs)
  end.

(** The shard answers every query for the namespace [key], on the heap
    [w] and without changing it, with the cursor of that query over
    [contents], the way the dict store does over the values of the
    namespace. *)
Definition serves (w : W) (key : Key) (shard : basic.Datastore W V)
    (contents : list V) : Prop :=
  forall q, q_key q = key ->
    basic.query shard q w = Ret (run_query q contents) w.

(** The result stream of a shard for a query: what it yields for the
    query with the offset and the limit taken away. *)
Definition result_stream (q : Query V) (contents : list V) : list V :=
  c_items (run_query (with_limit (with_offset q 0) None) contents).

(** The offset and the limit of a query as the data model has them: the
    offset is not negative and the limit, when set, is positive. *)
Definition valid_query (q : Query V) : Prop :=
  0 <= q_offset q /\
  match q_limit q with Some l => 0 < l | None => True end.

(** A stub shard for tests: it holds [contents] in one namespace. *)
Definition listing_store (id : nat) (contents : list V) : basic.Datastore W V :=
  basic.mkDatastore id
    (fun _ => ret None)
    (fun _ _ => ret tt)
    (fun _ => ret tt)
    (fun q => ret (run_query q contents))
    (fun _ => ret false).

End ShardVocabulary.

(** ** Example objects *)

Module examples.

Abbreviation heap := (gmap nat (gmap string (gmap Key nat))).

Definition key_ab : Key := ["a"; "b"].

(** Two dict stores at the addresses 0 and 1. *)
Definition fast : basic.Datastore heap nat := basic.DictDatastore.new 0.
Definition slow : basic.Datastore heap nat := basic.DictDatastore.new 1.

(** A tier that refuses writes, and a third dict store at the address 2. *)
Definition broken : basic.Datastore heap nat := refusing_store 5 RuntimeError.
Definition third : basic.Datastore heap nat := basic.DictDatastore.new 2.

Definition holding_7 : gmap string (gmap Key nat) :=
  {["/a" := {[key_ab := 7%nat]}]}.

Definition probed : gmap string (gmap Key nat) := {["/a" := ∅]}.

(** [slow] holds 7 under [/a/b]; [fast] holds nothing. *)
Definition only_slow : heap := <[0%nat := ∅]> (<[1%nat := holding_7]> ∅).

(** The same after [fast] has been asked for [/a/b]. *)
Definition only_slow_probed : heap :=
  <[0%nat := probed]> (<[1%nat := holding_7]> ∅).

(** Both stores hold 7 under [/a/b]. *)
Definition both : heap := <[0%nat := holding_7]> (<[1%nat := holding_7]> ∅).

(** Three empty dict stores, and the same with 7 written to the first
    two. *)
Definition three_empty : heap :=
  <[0%nat := ∅]> (<[1%nat := ∅]> (<[2%nat := ∅]> ∅)).

Definition three_one_written : heap :=
  <[0%nat := holding_7]> (<[1%nat := ∅]> (<[2%nat := ∅]> ∅)).

Definition three_two_written : heap :=
  <[0%nat := holding_7]> (<[1%nat := holding_7]> (<[2%nat := ∅]> ∅)).

(** A tiered store over [fast] and [slow], and a shim around it. *)
Definition tiered : basic.Datastore heap nat :=
  basic.TieredDatastore.new 3 [fast; slow].

Definition shim : basic.Datastore heap nat := basic.ShimDatastore.new 4 tiered.

(** The [__eq__] of a store class that compares two stores by their
    [name] attribute, [return self.name == other.name], where [name] gives
    the attribute of the object at an address. *)
Definition eq_by_name (name : nat -> string)
    (store store2 : basic.Datastore heap nat) : M heap bool :=
  ret (String.eqb (name (basic.oid store)) (name (basic.oid store2))).

(** Both of [fast] and [slow] are named [cache]. *)
Definition same_name (id : nat) : string := "cache".

(** Four shards serving the numbers 0 to 8, and a query for one page. *)
Definition four_contents : list (list nat) :=
  [[0; 1; 2]; [3; 4]; []; [5; 6; 7; 8]]%nat.

Definition four_shards : list (basic.Datastore unit nat) :=
  imap (fun i contents => listing_store i contents) four_contents.

Definition page (offset limit : Z) : Query nat :=
  mkQuery [] [] [] offset (Some limit).

(** Two shards and a query that sorts by value. *)
Definition two_shards : list (basic.Datastore unit nat) :=
  [listing_store 0 [3; 5]%nat; listing_store 1 [1; 2]%nat].

Definition by_value : Query nat := mkQuery [] [] [Nat.leb] 0 None.

(** Two dict stores that hold 7 and 8 in the namespace [/a], and a query
    for one page of that namespace. *)
Definition key_ac : Key := ["a"; "c"].

Definition holding_8 : gmap string (gmap Key nat) :=
  {["/a" := {[key_ac := 8%nat]}]}.

Definition two_dicts : heap := <[0%nat := holding_7]> (<[1%nat := holding_8]> ∅).

Definition page_of_a (offset limit : Z) : Query nat :=
  mkQuery ["a"] [] [] offset (Some limit).

(** A sharded store as the first shard of another, and a query that skips
    two items. *)
Definition inner_sharded : basic.Datastore unit nat :=
  basic.ShardedDatastore.new 5 [listing_store 0 [0; 1; 2]%nat] (fun _ => 0).

Definition nested_shards : list (basic.Datastore unit nat) :=
  [inner_sharded; listing_store 1 [3; 4; 5]%nat].

Definition from_third : Query nat := mkQuery [] [] [] 2 None.

End examples.

(** ** Vocabulary for the dict stores in a heap *)

Section DictVocabulary.
Context {V : Type}.

(** No namespace of the store has an empty collection. *)
Definition tidy (it : gmap string (gmap Key V)) : Prop :=
  map_Forall (fun _ (c : gmap Key V) => c ≠ ∅) it.

(** What the dict store at the address [id] of the heap holds under a
    key. *)
Definition held (h : gmap nat (gmap string (gmap Key V))) (key : Key)
    (id : nat) : option V :=
  h !! id ≫= (fun it => stored it key).

(** Every address of the list is that of a dict store of the heap. *)
Definition allocated (h : gmap nat (gmap string (gmap Key V)))
    (ids : list nat) : Prop :=
  Forall (fun id => is_Some (h !! id)) ids.

(** The dict stores at the addresses of the list, as tiers or shards. *)
Definition dict_stores (ids : list nat)
    : list (basic.Datastore (gmap nat (gmap string (gmap Key V))) V) :=
  basic.DictDatastore.new <$> ids.

End DictVocabulary.

Section LoopVocabulary.
Context {W V A : Type}.

(** Every store of the list, first to last, returned [expected] from the
    call [op]; the heap went from [w] to [w']. *)
Inductive each_returns (op : basic.Datastore W V -> M W A) (expected : A)
    : list (basic.Datastore W V) -> W -> W -> Prop :=
  | each_returns_nil w : each_returns op expected [] w w
  | each_returns_cons store rest w w1 w2 :
      op store w = Ret expected w1 ->
      each_returns op expected rest w1 w2 ->
      each_returns op expected (store :: rest) w w2.

End LoopVocabulary.

(** A stand-in for a key-value service: a table from strings to numbers
    with the methods [get], [set] and [delete]. *)
Definition table_service
    : gmap string (basic.InterfaceMappingDatastore.attribute
                     (W := gmap string nat) (SK := string) (V := nat)) :=
  <["get" := basic.InterfaceMappingDatastore.method1
               (fun k table => Ret (table !! k) table)]>
  (<["set" := basic.InterfaceMappingDatastore.method2
                (fun k value table =>
                   Ret None (match value with
                             | Some x => <[k := x]> table
                             | None => table
                             end))]>
  (<["delete" := basic.InterfaceMappingDatastore.method1
                   (fun k table => Ret None (delete k table))]> ∅)).

(** [depth] adapters, one around the other, around a binary store. *)
Definition adapter_stack {W B} (depth : nat) (d : binarystore.Datastore W B)
    : binarystore.Datastore W B :=
  Nat.iter depth (binarystore.Adapter.new 0) d.

(** ** Tactics *)

(** Case analysis on the test [a <=? 0] of the goal. *)
Ltac case_leb_zero :=
  match goal with
  | |- context [?a <=? 0] =>
      let Hle := fresh "Hdone" in
      let Hgt := fresh "Hmore" in
      destruct (Z.leb_spec a 0) as [Hle|Hgt]
  end.

(** * Properties *)

Local Open Scope py_scope.

(** ** The legacy [DictDatastore] *)

Section BasicDict.
Context {V : Type}.
Implicit Types (it : gmap string (gmap Key V)) (key : Key).

Import basic.

Lemma stored_with_collection key key' it :
  stored (with_collection key it) key' = stored it key'.
Proof.
  unfold stored, with_collection.
  destruct (it !! str (path key)) eqn:Hns; [done|].
  destruct (decide (str (path key) = str (path key'))) as [Heq|Hne].
  - rewrite <- Heq, lookup_insert_eq, Hns. done.
  - by rewrite lookup_insert_ne.
Qed.

Lemma with_collection_lookup key it :
  with_collection key it !! str (path key) =
    Some (default ∅ (it !! str (path key))).
Proof.
  unfold with_collection.
  destruct (it !! str (path key)) eqn:Hns; [done|].
  by rewrite lookup_insert_eq.
Qed.

Lemma with_collection_idemp key it :
  with_collection key (with_collection key it) = with_collection key it.
Proof.
  unfold with_collection at 1. by rewrite with_collection_lookup.
Qed.

Lemma stored_alt key it :
  stored it key = default ∅ (it !! str (path key)) !! key.
Proof. unfold stored. by destruct (it !! str (path key)). Qed.

Lemma basic_collection_spec key it :
  DictDatastore._collection key it =
    Ret (str (path key)) (with_collection key it).
Proof.
  unfold DictDatastore._collection, with_collection.
  by destruct (it !! str (path key)).
Qed.

Lemma getitem_spec key it :
  pydict.getitem (str (path key)) key it =
    match stored it key with
    | Some v => Ret v it
    | None => Raise KeyError it
    end.
Proof. done. Qed.

Lemma has_key_spec key it :
  is_Some (it !! str (path key)) ->
  pydict.has_key (str (path key)) key it =
    Ret (bool_decide (is_Some (stored it key))) it.
Proof.
  intros [c Hc]. unfold pydict.has_key, stored. by rewrite Hc.
Qed.

Lemma basic_get_spec key it :
  DictDatastore.get key it = Ret (stored it key) (with_collection key it).
Proof.
  unfold DictDatastore.get, try_except_KeyError, bind.
  rewrite basic_collection_spec, getitem_spec, stored_with_collection.
  by destruct (stored it key).
Qed.

Lemma basic_contains_spec key it :
  DictDatastore.contains key it =
    Ret (bool_decide (is_Some (stored it key))) (with_collection key it).
Proof.
  unfold DictDatastore.contains, bind.
  rewrite basic_collection_spec, has_key_spec, stored_with_collection; [done|].
  rewrite with_collection_lookup. eauto.
Qed.

(** The state a removal of a held key leaves: the collection without the
    key, or no collection at all when it has become empty. *)
Lemma delete_present_state key it c :
  it !! str (path key) = Some c ->
  stored (if Nat.eqb (size (base.delete key c)) 0
          then base.delete (str (path key)) it
          else <[str (path key) := base.delete key c]> it) key = None.
Proof.
  intros Hc. unfold stored. destruct (Nat.eqb _ 0).
  - by rewrite lookup_delete_eq.
  - rewrite lookup_insert_eq. simpl. by rewrite lookup_delete_eq.
Qed.

Lemma delete_present_other key key' it c :
  it !! str (path key) = Some c -> key' ≠ key ->
  stored (if Nat.eqb (size (base.delete key c)) 0
          then base.delete (str (path key)) it
          else <[str (path key) := base.delete key c]> it) key' =
  stored it key'.
Proof.
  intros Hc Hne. unfold stored.
  destruct (decide (str (path key) = str (path key'))) as [Heq|Hns].
  - rewrite <- Heq, Hc. simpl.
    destruct (Nat.eqb _ 0) eqn:Hsz.
    + rewrite lookup_delete_eq. simpl.
      apply Nat.eqb_eq, map_size_empty_inv in Hsz.
      rewrite <- (lookup_delete_ne c key key') by done.
      by rewrite Hsz, lookup_empty.
    + rewrite lookup_insert_eq. simpl. by rewrite lookup_delete_ne.
  - destruct (Nat.eqb _ 0).
    + by rewrite lookup_delete_ne.
    + by rewrite lookup_insert_ne.
Qed.

Lemma basic_delete_spec key it :
  DictDatastore.delete key it =
    Ret tt
      (match it !! str (path key) with
       | None => <[str (path key) := ∅]> it
       | Some c =>
           match c !! key with
           | None => it
           | Some _ =>
               if Nat.eqb (size (base.delete key c)) 0
               then base.delete (str (path key)) it
               else <[str (path key) := base.delete key c]> it
           end
       end).
Proof.
  unfold DictDatastore.delete, try_except_KeyError, bind.
  rewrite basic_collection_spec. unfold with_collection.
  destruct (it !! str (path key)) as [c|] eqn:Hns.
  - unfold pydict.delitem. rewrite Hns.
    destruct (c !! key) as [v|] eqn:Hk; [|done].
    rewrite basic_collection_spec. unfold with_collection.
    rewrite lookup_insert_eq.
    unfold pydict.len. rewrite lookup_insert_eq.
    destruct (Nat.eqb _ 0); [|done].
    unfold pydict.del_collection. rewrite lookup_insert_eq.
    by rewrite delete_insert_eq.
  - unfold pydict.delitem. rewrite lookup_insert_eq.
    by rewrite lookup_empty.
Qed.

Lemma basic_delete_stored key it :
  stored (heap_of (DictDatastore.delete key it)) key = None.
Proof.
  rewrite basic_delete_spec. simpl.
  destruct (it !! str (path key)) as [c|] eqn:Hns.
  - destruct (c !! key) eqn:Hk.
    + by apply delete_present_state.
    + unfold stored. rewrite Hns. done.
  - unfold stored. rewrite lookup_insert_eq. done.
Qed.

Lemma basic_put_value_spec key v it :
  DictDatastore.put key (Some v) it =
    Ret tt (<[str (path key) :=
               <[key := v]> (default ∅ (it !! str (path key)))]> it).
Proof.
  unfold DictDatastore.put, bind. rewrite basic_collection_spec.
  unfold pydict.setitem. rewrite with_collection_lookup.
  unfold with_collection.
  destruct (it !! str (path key)); [done|]. simpl.
  by rewrite insert_insert_eq.
Qed.

End BasicDict.

(** ** The binary [DictDatastore] *)

Section BinaryDict.
Context {B : Type}.
Implicit Types (it : gmap string (gmap Key B)) (key : Key).

Import binarystore stream.

Lemma binary_collection_spec key it :
  DictDatastore._collection key it =
    Ret (str (path key)) (with_collection key it).
Proof.
  unfold DictDatastore._collection, with_collection.
  by destruct (it !! str (path key)).
Qed.

Lemma binary_get_spec key it :
  DictDatastore.get key it =
    match stored it key with
    | Some data => Ret (stream_of data) (with_collection key it)
    | None => Raise KeyError (with_collection key it)
    end.
Proof.
  unfold DictDatastore.get, bind.
  rewrite binary_collection_spec, getitem_spec, stored_with_collection.
  by destruct (stored it key).
Qed.

Lemma binary_contains_spec key it :
  DictDatastore.contains key it =
    Ret (bool_decide (is_Some (stored it key))) (with_collection key it).
Proof.
  unfold DictDatastore.contains, bind.
  rewrite binary_collection_spec, has_key_spec, stored_with_collection; [done|].
  rewrite with_collection_lookup. eauto.
Qed.

Lemma binary_delete_spec key it :
  DictDatastore.delete key it =
    match it !! str (path key) with
    | None => Raise KeyError (<[str (path key) := ∅]> it)
    | Some c =>
        match c !! key with
        | None => Raise KeyError it
        | Some _ =>
            Ret tt (if Nat.eqb (size (base.delete key c)) 0
                    then base.delete (str (path key)) it
                    else <[str (path key) := base.delete key c]> it)
        end
    end.
Proof.
  unfold DictDatastore.delete, bind.
  rewrite binary_collection_spec. unfold with_collection.
  destruct (it !! str (path key)) as [c|] eqn:Hns.
  - unfold pydict.delitem. rewrite Hns.
    destruct (c !! key) as [v|] eqn:Hk; [|done].
    rewrite binary_collection_spec. unfold with_collection.
    rewrite lookup_insert_eq.
    unfold pydict.len. rewrite lookup_insert_eq.
    destruct (Nat.eqb _ 0); [|done].
    unfold pydict.del_collection. rewrite lookup_insert_eq.
    by rewrite delete_insert_eq.
  - unfold pydict.delitem. rewrite lookup_insert_eq.
    by rewrite lookup_empty.
Qed.

Lemma binary_delete_absent key it :
  stored it key = None ->
  DictDatastore.delete key it = Raise KeyError (with_collection key it).
Proof.
  intros Hs. rewrite binary_delete_spec. unfold stored in Hs.
  unfold with_collection.
  destruct (it !! str (path key)) as [c|]; [|done].
  simpl in Hs. by rewrite Hs.
Qed.

Lemma binary_delete_present key it data :
  stored it key = Some data ->
  exists it', DictDatastore.delete key it = Ret tt it' /\
    stored it' key = None /\
    forall key', key' ≠ key -> stored it' key' = stored it key'.
Proof.
  intros Hs. rewrite binary_delete_spec. unfold stored in Hs.
  destruct (it !! str (path key)) as [c|] eqn:Hns; [|done].
  simpl in Hs. rewrite Hs. eexists. split; [done|]. split.
  - by apply delete_present_state.
  - intros key' Hne. by apply delete_present_other.
Qed.

End BinaryDict.

(** ** What the dict stores guarantee *)

Section DictGuarantees.
Context {V : Type}.
Implicit Types (it : gmap string (gmap Key V)) (key : Key).

Lemma basic_delete_other key key' it :
  key' ≠ key ->
  stored (heap_of (basic.DictDatastore.delete key it)) key' = stored it key'.
Proof.
  intros Hne. rewrite basic_delete_spec. simpl.
  destruct (it !! str (path key)) as [c|] eqn:Hns.
  - destruct (c !! key) eqn:Hk; [|done].
    by apply delete_present_other.
  - pose proof (stored_with_collection key key' it) as Hw.
    unfold with_collection in Hw. by rewrite Hns in Hw.
Qed.

Lemma len_with_collection key it :
  basic.DictDatastore.__len__ (with_collection key it) =
  basic.DictDatastore.__len__ it.
Proof.
  unfold with_collection, basic.DictDatastore.__len__.
  destruct (it !! str (path key)) eqn:Hns; [done|].
  rewrite map_fold_insert_L; [done| |done].
  intros. lia.
Qed.

(** C9 (amended): [get] and [contains] of both dict stores never change
    what the store holds: the value stored under every key and the length
    of the store are the same before and after the call.  The items mapping
    itself is left identical when the namespace of the probed key already
    has a collection; otherwise the call adds an empty collection for that
    namespace. *)
Theorem dict_reads_keep_contents it key :
  heap_of (basic.DictDatastore.get key it) = with_collection key it /\
  heap_of (basic.DictDatastore.contains key it) = with_collection key it /\
  heap_of (binarystore.DictDatastore.get key it) = with_collection key it /\
  heap_of (binarystore.DictDatastore.contains key it) = with_collection key it /\
  (forall key', stored (with_collection key it) key' = stored it key') /\
  basic.DictDatastore.__len__ (with_collection key it) =
    basic.DictDatastore.__len__ it /\
  with_collection key it =
    (if decide (is_Some (it !! str (path key))) then it
     else <[str (path key) := ∅]> it).
Proof.
  rewrite basic_get_spec, basic_contains_spec, binary_get_spec,
    binary_contains_spec.
  repeat split; try done.
  - by destruct (stored it key).
  - intros key'. apply stored_with_collection.
  - apply len_with_collection.
  - unfold with_collection. destruct (it !! str (path key)) eqn:Hns.
    + rewrite decide_True; eauto.
    + rewrite decide_False; [done|]. by intros [? ?].
Qed.

(** C10: on the legacy dict store [put(key, None)] is a removal: afterwards
    [contains(key)] is false and [get(key)] is [None], whatever the key
    held; a value other than [None] is read back by [get]. *)
Theorem basic_put_None_deletes it key (v : V) :
  (exists it1, basic.DictDatastore.put key None it = Ret tt it1 /\
     (exists it2, basic.DictDatastore.contains key it1 = Ret false it2) /\
     (exists it2, basic.DictDatastore.get key it1 = Ret None it2)) /\
  (exists it1, basic.DictDatastore.put key (Some v) it = Ret tt it1 /\
     (exists it2, basic.DictDatastore.get key it1 = Ret (Some v) it2) /\
     (exists it2, basic.DictDatastore.contains key it1 = Ret true it2)).
Proof.
  split.
  - pose proof (basic_delete_stored key it) as Hs.
    simpl. rewrite basic_delete_spec in *. simpl in Hs.
    eexists. split; [done|].
    rewrite basic_contains_spec, basic_get_spec, Hs. split; eexists; done.
  - rewrite basic_put_value_spec. eexists. split; [done|].
    rewrite basic_get_spec, basic_contains_spec.
    unfold stored. rewrite lookup_insert_eq. simpl. rewrite lookup_insert_eq.
    split; eexists; done.
Qed.

(** C7 (amended): on the binary dict store, a [delete] of a held key
    succeeds and afterwards [contains] answers false and [get] raises
    [KeyError]; a [delete] of an absent key raises [KeyError] and leaves
    the value stored under every key as it was.  On the legacy dict store
    [delete] returns normally whether or not the key was held, and
    afterwards [contains] answers false and [get] answers [None].  In both
    stores the other keys keep their values. *)
Theorem dict_delete_spec it key :
  match stored it key with
  | Some _ =>
      exists it', binarystore.DictDatastore.delete key it = Ret tt it' /\
        (exists it2, binarystore.DictDatastore.contains key it' = Ret false it2) /\
        (exists it2, binarystore.DictDatastore.get key it' = Raise KeyError it2) /\
        (forall key', key' ≠ key -> stored it' key' = stored it key')
  | None =>
      exists it', binarystore.DictDatastore.delete key it = Raise KeyError it' /\
        (forall key', stored it' key' = stored it key')
  end /\
  (exists it', basic.DictDatastore.delete key it = Ret tt it' /\
     (exists it2, basic.DictDatastore.contains key it' = Ret false it2) /\
     (exists it2, basic.DictDatastore.get key it' = Ret None it2) /\
     (forall key', key' ≠ key -> stored it' key' = stored it key')).
Proof.
  split.
  - destruct (stored it key) as [data|] eqn:Hs.
    + destruct (binary_delete_present key it data Hs) as (it' & Hd & Hk & Ho).
      exists it'. split; [done|].
      rewrite binary_contains_spec, binary_get_spec, Hk.
      repeat split; eauto.
    + rewrite (binary_delete_absent key it Hs). eexists. split; [done|].
      intros key'. apply stored_with_collection.
  - pose proof (basic_delete_stored key it) as Hs.
    pose proof (fun key' => basic_delete_other key key' it) as Ho.
    rewrite basic_delete_spec in *. simpl in Hs, Ho.
    eexists. split; [done|].
    rewrite basic_contains_spec, basic_get_spec, Hs.
    repeat split; eauto.
Qed.

End DictGuarantees.

(** C9, as stated, fails: probing a key of an empty store leaves an empty
    collection for the key's namespace in the items mapping. *)
Lemma dict_probe_creates_collection :
  heap_of (basic.DictDatastore.get ["a"; "b"] (∅ : gmap string (gmap Key nat)))
    = {["/a" := ∅]} /\
  heap_of (basic.DictDatastore.contains ["a"; "b"] (∅ : gmap string (gmap Key nat)))
    = {["/a" := ∅]} /\
  heap_of (binarystore.DictDatastore.get ["a"; "b"] (∅ : gmap string (gmap Key nat)))
    = {["/a" := ∅]} /\
  heap_of (binarystore.DictDatastore.contains ["a"; "b"] (∅ : gmap string (gmap Key nat)))
    = {["/a" := ∅]} /\
  ({["/a" := ∅]} : gmap string (gmap Key nat)) ≠ ∅.
Proof.
  rewrite basic_get_spec, basic_contains_spec, binary_get_spec,
    binary_contains_spec.
  repeat split; first [done | apply insert_non_empty].
Qed.

(** C7, as stated, fails: on the binary dict store the [delete] of an absent
    key raises [KeyError] but leaves an empty collection behind; on the
    legacy dict store it raises nothing; and the null store, which holds no
    key at all, takes every [delete] without raising. *)
Lemma dict_delete_absent_changes_state :
  binarystore.DictDatastore.delete ["a"; "b"] (∅ : gmap string (gmap Key nat))
    = Raise KeyError {["/a" := ∅]} /\
  ({["/a" := ∅]} : gmap string (gmap Key nat)) ≠ ∅ /\
  basic.DictDatastore.delete ["a"; "b"] (∅ : gmap string (gmap Key nat))
    = Ret tt {["/a" := ∅]} /\
  binarystore.NullDatastore.delete (W := unit) ["a"; "b"] tt = Ret tt tt.
Proof.
  rewrite binary_delete_spec, basic_delete_spec.
  repeat split; first [done | apply insert_non_empty].
Qed.

(** ** The tiered store *)

Section Tiered.
Context {W V : Type}.
Implicit Types (stores pre post : list (basic.Datastore W V)) (key : Key).
Implicit Types (before after : list (basic.Datastore W V)).
Implicit Types (hit b : basic.Datastore W V).
Implicit Types (eq : basic.Datastore W V -> basic.Datastore W V -> M W bool).

Import basic.

Lemma first_found_hit pre store post key (v : V) w w1 w2 :
  all_miss key pre w w1 ->
  get store key w1 = Ret (Some v) w2 ->
  TieredDatastore.first_found (pre ++ store :: post) key w =
    Ret (Some (store, v)) w2.
Proof.
  induction 1 as [w|s rest w wa wb Hs _ IH]; intros Hhit; simpl.
  - unfold bind. by rewrite Hhit.
  - unfold bind. rewrite Hs. by apply IH.
Qed.

Lemma first_found_none stores key w w1 :
  all_miss key stores w w1 ->
  TieredDatastore.first_found stores key w = Ret None w1.
Proof.
  induction 1 as [w|s rest w wa wb Hs _ IH]; simpl; [done|].
  unfold bind. by rewrite Hs.
Qed.

Lemma store_eq_refl (store : Datastore W V) : store_eq store store = true.
Proof. apply Nat.eqb_refl. Qed.

Lemma store_eq_other (store store2 : Datastore W V) :
  oid store2 ≠ oid store -> store_eq store store2 = false.
Proof. intros Hne. apply Nat.eqb_neq. congruence. Qed.

Lemma add_to_lower_stops pre store post key (v : V) w w1 :
  other_instances store pre ->
  all_put key (Some v) pre w w1 ->
  TieredDatastore.add_to_lower store (pre ++ store :: post) key v w = Ret tt w1.
Proof.
  intros Hother Hput. revert Hother.
  induction Hput as [w|s rest w wa wb Hs _ IH]; intros Hother; simpl.
  - by rewrite store_eq_refl.
  - apply Forall_cons in Hother as [Hne Hother].
    rewrite store_eq_other by done.
    unfold bind. rewrite Hs. by apply IH.
Qed.

Lemma add_to_lower_fails pre s pre' store key (v : V) e w w1 w2 :
  other_instances store (pre ++ [s]) ->
  all_put key (Some v) pre w w1 ->
  put s key (Some v) w1 = Raise e w2 ->
  TieredDatastore.add_to_lower store (pre ++ s :: pre') key v w = Raise e w2.
Proof.
  intros Hother Hput. revert Hother.
  induction Hput as [w|s0 rest w wa wb Hs _ IH]; intros Hother Hfail; simpl.
  - apply Forall_cons in Hother as [Hne _].
    rewrite store_eq_other by done.
    unfold bind. by rewrite Hfail.
  - simpl in Hother. apply Forall_cons in Hother as [Hne Hother].
    rewrite store_eq_other by done.
    unfold bind. rewrite Hs. by apply IH.
Qed.

Lemma put_loop_all stores key value w w1 :
  all_put key value stores w w1 ->
  TieredDatastore.put_loop stores key value w = Ret tt w1.
Proof.
  induction 1 as [w|s rest w wa wb Hs _ IH]; simpl; [done|].
  unfold bind. by rewrite Hs.
Qed.

Lemma put_loop_fails stores store post key value e w w1 w2 :
  all_put key value stores w w1 ->
  put store key value w1 = Raise e w2 ->
  TieredDatastore.put_loop (stores ++ store :: post) key value w = Raise e w2.
Proof.
  induction 1 as [w|s rest w wa wb Hs _ IH]; intros Hfail; simpl.
  - unfold bind. by rewrite Hfail.
  - unfold bind. rewrite Hs. by apply IH.
Qed.

Lemma add_to_lower_by_stops eq hit before b after key (v : V) w w1 w2 :
  promoted eq hit key v before w w1 ->
  eq hit b w1 = Ret true w2 ->
  TieredDatastore.add_to_lower_by eq hit (before ++ b :: after) key v w =
    Ret tt w2.
Proof.
  induction 1 as [w|s rest w wa wb wc Hne Hs _ IH]; intros Heq; simpl.
  - unfold bind. by rewrite Heq.
  - unfold bind. rewrite Hne, Hs. by apply IH.
Qed.

Lemma add_to_lower_by_runs_out eq hit stores key (v : V) w w1 :
  promoted eq hit key v stores w w1 ->
  TieredDatastore.add_to_lower_by eq hit stores key v w = Ret tt w1.
Proof.
  induction 1 as [w|s rest w wa wb wc Hne Hs _ IH]; simpl; [done|].
  unfold bind. by rewrite Hne, Hs.
Qed.

(** With the default comparison the second loop is the one on the
    identities of the stores. *)
Lemma add_to_lower_by_default hit stores key (v : V) w :
  TieredDatastore.add_to_lower_by TieredDatastore.default_eq hit stores key v w =
    TieredDatastore.add_to_lower hit stores key v w.
Proof.
  revert w. induction stores as [|s rest IH]; intros w; simpl; [done|].
  unfold TieredDatastore.default_eq, bind, ret.
  destruct (store_eq hit s); [done|].
  destruct (put s key (Some v) w); [apply IH | done].
Qed.

Lemma get_by_default stores key w :
  TieredDatastore.get_by TieredDatastore.default_eq stores key w =
    TieredDatastore.get stores key w.
Proof.
  unfold TieredDatastore.get_by, TieredDatastore.get, bind.
  destruct (TieredDatastore.first_found stores key w) as [[[s v]|] w1|e w1];
    [|done|done].
  by rewrite add_to_lower_by_default.
Qed.

Lemma promoted_default hit pre key (v : V) w w1 :
  other_instances hit pre ->
  all_put key (Some v) pre w w1 ->
  promoted TieredDatastore.default_eq hit key v pre w w1.
Proof.
  intros Hother Hput. revert Hother.
  induction Hput as [w|s rest w wa wb Hs _ IH]; intros Hother;
    [constructor|].
  apply Forall_cons in Hother as [Hne Hother].
  apply (promoted_cons _ _ _ _ _ _ _ w wa); [|done|by apply IH].
  unfold TieredDatastore.default_eq, ret. by rewrite store_eq_other.
Qed.

(** C2 (amended): when the tiers before a store all answer [None] and the
    store answers a value, the first loop of [get] stops at that store
    with that value.  The value is then put, in order, into the tiers that
    come before the first tier that compares equal ([==]) to the hit
    store, and [get] returns it: the place to stop is decided by the
    comparison of the stores' classes, and when no tier compares equal
    every tier is written.  For stores whose classes define no comparison,
    [==] is the identity of the objects: when the hit instance is at no
    earlier position and the tiers before it take the value, exactly
    those tiers are written, whatever they hold. *)
Theorem tiered_get_promotes_up_to_equal pre hit post key (v : V) w w1 w2 :
  all_miss key pre w w1 ->
  get hit key w1 = Ret (Some v) w2 ->
  (forall eq before b after w3 w4,
     pre ++ hit :: post = before ++ b :: after ->
     promoted eq hit key v before w2 w3 ->
     eq hit b w3 = Ret true w4 ->
     TieredDatastore.get_by eq (pre ++ hit :: post) key w = Ret (Some v) w4) /\
  (forall eq w3,
     promoted eq hit key v (pre ++ hit :: post) w2 w3 ->
     TieredDatastore.get_by eq (pre ++ hit :: post) key w = Ret (Some v) w3) /\
  (forall w3,
     other_instances hit pre ->
     all_put key (Some v) pre w2 w3 ->
     TieredDatastore.get_by TieredDatastore.default_eq
       (pre ++ hit :: post) key w = Ret (Some v) w3 /\
     TieredDatastore.get (pre ++ hit :: post) key w = Ret (Some v) w3).
Proof.
  intros Hmiss Hhit.
  assert (Hfound := first_found_hit _ _ post _ _ _ _ _ Hmiss Hhit).
  assert (Hstop : forall eq before b after w3 w4,
            pre ++ hit :: post = before ++ b :: after ->
            promoted eq hit key v before w2 w3 ->
            eq hit b w3 = Ret true w4 ->
            TieredDatastore.get_by eq (pre ++ hit :: post) key w =
              Ret (Some v) w4).
  { intros eq before b after w3 w4 Hsplit Hprom Heq.
    unfold TieredDatastore.get_by, bind. rewrite Hfound, Hsplit.
    by rewrite (add_to_lower_by_stops _ _ _ _ after _ _ _ _ _ Hprom Heq). }
  split; [exact Hstop|]. split.
  - intros eq w3 Hprom.
    unfold TieredDatastore.get_by, bind. rewrite Hfound.
    by rewrite (add_to_lower_by_runs_out _ _ _ _ _ _ _ Hprom).
  - intros w3 Hother Hput.
    assert (Hby : TieredDatastore.get_by TieredDatastore.default_eq
                    (pre ++ hit :: post) key w = Ret (Some v) w3).
    { apply (Hstop _ pre hit post w3 w3); [done| |].
      - by apply promoted_default.
      - unfold TieredDatastore.default_eq, ret. by rewrite store_eq_refl. }
    split; [exact Hby|]. by rewrite <- get_by_default.
Qed.

(** C3 (amended): when a value is found at a tier and the promotion write
    into an earlier tier fails, [get] fails with that error: the value is
    not returned, the tiers before the failing one keep the promoted value
    and the tiers after it are not written. *)
Theorem tiered_get_promotion_failure_propagates
    pre1 s pre2 store post key (v : V) e w w1 w2 w3 w4 :
  all_miss key (pre1 ++ s :: pre2) w w1 ->
  get store key w1 = Ret (Some v) w2 ->
  other_instances store (pre1 ++ [s]) ->
  all_put key (Some v) pre1 w2 w3 ->
  put s key (Some v) w3 = Raise e w4 ->
  TieredDatastore.get ((pre1 ++ s :: pre2) ++ store :: post) key w = Raise e w4.
Proof.
  intros Hmiss Hhit Hother Hput Hfail.
  unfold TieredDatastore.get, bind.
  rewrite (first_found_hit _ _ _ _ _ _ _ _ Hmiss Hhit).
  rewrite <- app_assoc. simpl.
  by rewrite (add_to_lower_fails _ _ _ _ _ _ _ _ _ _ Hother Hput Hfail).
Qed.

(** C4: [put] writes the value into the tiers in order.  When all of them
    take it, the call returns and the heap is the one the writes produced
    one after the other; when the tiers before some tier take it and that
    tier fails, the call fails with that tier's error, on the heap that
    the earlier writes and the failed one left: nothing is undone and no
    later tier is written, whatever the later tiers are. *)
Theorem tiered_put_write_through stores key value w w1 :
  all_put key value stores w w1 ->
  TieredDatastore.put stores key value w = Ret tt w1 /\
  (forall store post e w2,
     put store key value w1 = Raise e w2 ->
     TieredDatastore.put (stores ++ store :: post) key value w = Raise e w2).
Proof.
  intros Hput. split.
  - by apply put_loop_all.
  - intros store post e w2 Hfail. by eapply put_loop_fails.
Qed.

End Tiered.

(** ** The tiered store on dict stores *)

Section TieredExamples.
Import basic examples.

Lemma tiered_get_promotes_up_to_equal_witness :
  TieredDatastore.get [fast; slow] key_ab only_slow = Ret (Some 7%nat) both /\
  contains fast key_ab both = Ret true both /\
  TieredDatastore.get_by (eq_by_name same_name) [fast; slow] key_ab only_slow =
    Ret (Some 7%nat) only_slow_probed.
Proof.
  destruct (tiered_get_promotes_up_to_equal [fast] slow [] key_ab 7%nat
              only_slow only_slow_probed only_slow_probed)
    as (Hequal & _ & Hsame).
  - apply (all_miss_cons _ _ _ _ only_slow_probed);
      [exact eq_refl | constructor].
  - exact eq_refl.
  - split; [|split].
    + apply (Hsame both).
      * repeat constructor. cbn. lia.
      * apply (all_put_cons _ _ _ _ _ both);
          [exact eq_refl | constructor].
    + exact eq_refl.
    + apply (Hequal (eq_by_name same_name) [] fast [slow]
               only_slow_probed only_slow_probed).
      * reflexivity.
      * constructor.
      * reflexivity.
Defined.

(** C2, as stated, fails for stores of a class that defines [__eq__]:
    [fast] and [slow] are two objects that compare equal by name, [slow]
    holds the value and [fast] does not.  [get] finds the value at the
    second tier and stops the second loop at the first tier, which is not
    the instance that answered: the tier before the hit is not written. *)
Lemma tiered_get_halts_at_an_equal_tier :
  oid fast ≠ oid slow /\
  eq_by_name same_name slow fast only_slow_probed = Ret true only_slow_probed /\
  get fast key_ab only_slow = Ret None only_slow_probed /\
  get slow key_ab only_slow_probed = Ret (Some 7%nat) only_slow_probed /\
  TieredDatastore.get_by (eq_by_name same_name) [fast; slow] key_ab only_slow =
    Ret (Some 7%nat) only_slow_probed /\
  held only_slow_probed key_ab 0 = None /\
  contains fast key_ab only_slow_probed = Ret false only_slow_probed.
Proof.
  split; [discriminate|].
  split; [reflexivity|].
  split; [exact eq_refl|].
  split; [exact eq_refl|].
  split; [exact eq_refl|].
  split; exact eq_refl.
Qed.

Lemma tiered_get_promotion_failure_propagates_witness :
  TieredDatastore.get [broken; slow] key_ab only_slow =
    Raise RuntimeError only_slow.
Proof.
  apply (tiered_get_promotion_failure_propagates [] broken [] slow []
           key_ab 7%nat RuntimeError only_slow only_slow only_slow only_slow
           only_slow).
  - apply (all_miss_cons _ _ _ _ only_slow); [reflexivity | constructor].
  - exact eq_refl.
  - repeat constructor. cbn. lia.
  - constructor.
  - reflexivity.
Defined.

(** C3, as stated, fails: the slow tier holds the value, the write into
    the tier before it fails, and [get] raises instead of returning the
    value. *)
Lemma tiered_get_raises_on_failed_promotion :
  get slow key_ab only_slow = Ret (Some 7%nat) only_slow /\
  put broken key_ab (Some 7%nat) only_slow = Raise RuntimeError only_slow /\
  TieredDatastore.get [broken; slow] key_ab only_slow =
    Raise RuntimeError only_slow.
Proof.
  split; [exact eq_refl|].
  split; [reflexivity|].
  exact eq_refl.
Qed.

Lemma tiered_put_write_through_witness :
  TieredDatastore.put [fast; slow] key_ab (Some 7%nat) three_empty =
    Ret tt three_two_written /\
  TieredDatastore.put ([fast; slow] ++ broken :: [third]) key_ab (Some 7%nat)
    three_empty = Raise RuntimeError three_two_written.
Proof.
  assert (Hput : all_put key_ab (Some 7%nat) [fast; slow]
                   three_empty three_two_written).
  { apply (all_put_cons _ _ _ _ _ three_one_written);
      [exact eq_refl|].
    apply (all_put_cons _ _ _ _ _ three_two_written);
      [exact eq_refl | constructor]. }
  destruct (tiered_put_write_through [fast; slow] key_ab (Some 7%nat)
              three_empty three_two_written Hput) as [Hok Hfail].
  split; [exact Hok|].
  apply Hfail. reflexivity.
Defined.

End TieredExamples.

(** ** The default [contains] *)

Section Contains.
Context {W B V : Type}.

(** C5: the default [contains] answers false exactly when [get] raises
    [KeyError] (legacy: returns [None]) and true when [get] returns; it
    never raises [KeyError] itself, and any other error of [get] comes out
    of it unchanged.  The stream that [get] returned is closed, which is
    taken to return normally. *)
Theorem default_contains_spec
    (aclose : stream.ReceiveStream B -> M W unit)
    (self_get : Key -> M W (stream.ReceiveStream B))
    (legacy_get : Key -> M W (option V)) (key : Key) (w : W) :
  (forall s w1, exists w2, aclose s w1 = Ret tt w2) ->
  match self_get key w with
  | Ret s w1 =>
      exists w2, aclose s w1 = Ret tt w2 /\
        binarystore.Datastore_contains aclose self_get key w = Ret true w2
  | Raise KeyError w1 =>
      binarystore.Datastore_contains aclose self_get key w = Ret false w1
  | Raise e w1 =>
      binarystore.Datastore_contains aclose self_get key w = Raise e w1
  end /\
  (forall w', binarystore.Datastore_contains aclose self_get key w
              ≠ Raise KeyError w') /\
  match legacy_get key w with
  | Ret (Some _) w1 => basic.Datastore_contains legacy_get key w = Ret true w1
  | Ret None w1 => basic.Datastore_contains legacy_get key w = Ret false w1
  | Raise e w1 => basic.Datastore_contains legacy_get key w = Raise e w1
  end.
Proof.
  intros Hclose.
  unfold binarystore.Datastore_contains, basic.Datastore_contains,
    try_except_KeyError, bind, ret.
  repeat split.
  - destruct (self_get key w) as [s w1|e w1].
    + destruct (Hclose s w1) as [w2 Hw2]. exists w2. by rewrite Hw2.
    + by destruct e.
  - intros w'. destruct (self_get key w) as [s w1|e w1].
    + destruct (Hclose s w1) as [w2 Hw2]. by rewrite Hw2.
    + by destruct e.
  - destruct (legacy_get key w) as [[v|] w1|e w1]; done.
Qed.

End Contains.

Lemma default_contains_spec_witness :
  (exists w2, binarystore.Datastore_contains stream.aclose
                binarystore.DictDatastore.get examples.key_ab
                examples.holding_7 = Ret true w2) /\
  basic.Datastore_contains basic.DictDatastore.get examples.key_ab
    examples.holding_7 = Ret true examples.holding_7.
Proof.
  destruct (default_contains_spec stream.aclose
              binarystore.DictDatastore.get basic.DictDatastore.get
              examples.key_ab examples.holding_7) as (Hb & _ & Hl).
  - intros s w1. exists w1. reflexivity.
  - split.
    + hnf in Hb. destruct Hb as (w2 & _ & Hb). exists w2. exact Hb.
    + exact Hl.
Defined.

(** ** Shims and adapters *)

Section Delegation.
Context {W V : Type}.

(** The four methods [ShimDatastore] defines hand the call to the child
    unchanged. *)
Lemma shim_delegates (id : nat) (d : basic.Datastore W V) :
  basic.get (basic.ShimDatastore.new id d) = basic.get d /\
  basic.put (basic.ShimDatastore.new id d) = basic.put d /\
  basic.delete (basic.ShimDatastore.new id d) = basic.delete d /\
  basic.query (basic.ShimDatastore.new id d) = basic.query d.
Proof. repeat split. Qed.

(** Every method of [Adapter], [put] included, hands the call to the
    child unchanged. *)
Lemma adapter_delegates (id : nat) (d : binarystore.Datastore W V) :
  binarystore.get (binarystore.Adapter.new id d) = binarystore.get d /\
  (forall key value,
     binarystore.Datastore_put (binarystore.Adapter.new id d) key value =
     binarystore.Datastore_put d key value) /\
  binarystore.delete (binarystore.Adapter.new id d) = binarystore.delete d /\
  binarystore.query (binarystore.Adapter.new id d) = binarystore.query d /\
  binarystore.contains (binarystore.Adapter.new id d) = binarystore.contains d.
Proof. repeat split. Qed.

End Delegation.

(** C6: a shim is to pass every call to its child unchanged, with the
    child's result and state change.  [ShimDatastore] does not do so for
    [contains]: it inherits the default [contains], which calls the child's
    [get], not the child's [contains].  Around a tiered store whose slow tier alone holds the key,
    the shim's [contains] promotes the value into the fast tier, while the
    tiered store's own [contains] only probes it. *)
Theorem shim_contains_is_not_delegated :
  basic.contains examples.shim examples.key_ab examples.only_slow =
    Ret true examples.both /\
  basic.contains examples.tiered examples.key_ab examples.only_slow =
    Ret true examples.only_slow_probed /\
  examples.both ≠ examples.only_slow_probed.
Proof.
  split; [exact eq_refl|]. split; [exact eq_refl|].
  intros Heq.
  apply (f_equal (fun h : examples.heap =>
                    h !! 0%nat ≫= (fun it => stored it examples.key_ab))) in Heq.
  discriminate Heq.
Qed.

(** ** The member list of a collection *)

Section Collection.
Import basic.DatastoreCollection.

(** C8: collections built without a [stores] argument are to have member
    lists of their own.  They do not: the default [stores=[]] is one list
    object, made when [__init__] is defined; two collections built
    without the argument both refer to it, and a store appended to one is a
    member of the other.  The same holds for [ShardedDatastore]. *)
Theorem default_stores_list_is_shared :
  (a <~ __init__default ;;
   b <~ __init__default ;;
   appendDatastore a (datastore_ref 7) ;;;
   list_read (_stores b)) module_heap =
    Ret [datastore_ref 7]
        (mkHeap (<[0%nat := [datastore_ref 7]]> (<[1%nat := []]> ∅)) 2) /\
  (a <~ ShardedDatastore__init__default ;;
   b <~ ShardedDatastore__init__default ;;
   appendDatastore a (datastore_ref 7) ;;;
   list_read (_stores b)) module_heap =
    Ret [datastore_ref 7]
        (mkHeap (<[0%nat := []]> (<[1%nat := [datastore_ref 7]]> ∅)) 2).
Proof. split; exact eq_refl. Qed.

(** With the argument given as another iterable each collection gets a list
    of its own. *)
Lemma copied_stores_are_not_shared :
  (a <~ __init__ (iterable []) ;;
   b <~ __init__ (iterable []) ;;
   appendDatastore a (datastore_ref 7) ;;;
   list_read (_stores b)) module_heap =
    Ret []
        (mkHeap (<[2%nat := [datastore_ref 7]]>
                   (<[3%nat := []]> (lists module_heap))) 4).
Proof. exact eq_refl. Qed.

End Collection.

(** ** The sharded store *)

Section Sharded.
Context {W V : Type}.
Implicit Types (q sq : Query V) (contents : list (list V)) (w : W).

Import basic.

Lemma run_query_of_stream q sq c :
  q_filters sq = q_filters q -> q_orders sq = q_orders q ->
  run_query sq c =
    mkCursor
      (slice (q_offset sq) (q_limit sq) (result_stream q c))
      (Z.of_nat (length (result_stream q c)
                 - length (drop (Z.to_nat (q_offset sq)) (result_stream q c))))
      (Z.of_nat (length (slice (q_offset sq) (q_limit sq) (result_stream q c)))).
Proof.
  intros Hf Ho.
  unfold run_query, result_stream, run_query, slice, apply_order, apply_filter.
  simpl. rewrite Hf, Ho. done.
Qed.

Lemma insert_sorted_perm (le : V -> V -> bool) x l :
  Permutation (insert_sorted le x l) (x :: l).
Proof.
  induction l as [|y l IH]; simpl; [done|].
  destruct (le x y); [done|].
  rewrite IH. apply perm_swap.
Qed.

Lemma apply_order_perm q l : Permutation (apply_order q l) l.
Proof.
  unfold apply_order. destruct (q_orders q); [done|].
  unfold sorted_by. induction l as [|x l IH]; simpl; [done|].
  by rewrite insert_sorted_perm, IH.
Qed.

Lemma stitch_unlimited (o : Z) (s rest : list V) :
  0 <= o ->
  drop (Z.to_nat o) s ++
  drop (Z.to_nat (Z.max (o - Z.of_nat (length s - length (drop (Z.to_nat o) s))) 0))
       rest =
  drop (Z.to_nat o) (s ++ rest).
Proof.
  intros Ho. rewrite drop_app, length_drop. f_equal. f_equal. lia.
Qed.

Lemma stitch_limit_reached (o l : Z) (s rest : list V) :
  Z.max (l - Z.of_nat (length (take (Z.to_nat l) (drop (Z.to_nat o) s)))) 0 <= 0 ->
  take (Z.to_nat l) (drop (Z.to_nat o) s) =
  take (Z.to_nat l) (drop (Z.to_nat o) (s ++ rest)).
Proof.
  rewrite length_take, length_drop. intros Hdone.
  rewrite drop_app, take_app_le; [done|]. rewrite length_drop. lia.
Qed.

Lemma stitch_limited (o l : Z) (s rest : list V) :
  0 <= o ->
  0 < Z.max (l - Z.of_nat (length (take (Z.to_nat l) (drop (Z.to_nat o) s)))) 0 ->
  take (Z.to_nat l) (drop (Z.to_nat o) s) ++
  take (Z.to_nat
          (Z.max (l - Z.of_nat (length (take (Z.to_nat l) (drop (Z.to_nat o) s)))) 0))
       (drop (Z.to_nat
                (Z.max (o - Z.of_nat (length s - length (drop (Z.to_nat o) s))) 0))
             rest) =
  take (Z.to_nat l) (drop (Z.to_nat o) (s ++ rest)).
Proof.
  rewrite length_take, !length_drop. intros Ho Hmore.
  rewrite drop_app, take_app, length_drop. f_equal.
  f_equal; [lia|]. f_equal. lia.
Qed.

(** One round of the loop on a shard that serves [contents]. *)
Lemma shard_query_loop_step shard c rest sq w :
  serves w (q_key sq) shard c ->
  ShardedDatastore.shard_query_loop (shard :: rest) sq w =
    let cursor := run_query sq c in
    let offset' := Z.max (q_offset sq - c_skipped cursor) 0 in
    match q_limit sq with
    | Some l =>
        if l =? 0 then
          (more <~ ShardedDatastore.shard_query_loop rest (with_offset sq offset') ;;
           ret (c_items cursor ++ more)) w
        else if Z.max (l - c_returned cursor) 0 <=? 0 then
          Ret (c_items cursor) w
        else
          (more <~ ShardedDatastore.shard_query_loop rest
                     (with_limit (with_offset sq offset')
                        (Some (Z.max (l - c_returned cursor) 0))) ;;
           ret (c_items cursor ++ more)) w
    | None =>
        (more <~ ShardedDatastore.shard_query_loop rest (with_offset sq offset') ;;
         ret (c_items cursor ++ more)) w
    end.
Proof.
  intros Hserves. simpl. unfold bind at 1. rewrite Hserves by done. simpl.
  destruct (q_limit sq) as [l|]; simpl; [|done].
  destruct (l =? 0); simpl; [done|].
  by destruct (_ <=? 0).
Qed.

Lemma shard_query_loop_slices q shards contents w :
  Forall2 (serves w (q_key q)) shards contents ->
  forall sq,
    q_key sq = q_key q ->
    q_filters sq = q_filters q -> q_orders sq = q_orders q ->
    valid_query sq ->
    ShardedDatastore.shard_query_loop shards sq w =
      Ret (slice (q_offset sq) (q_limit sq)
             (concat (map (result_stream q) contents))) w.
Proof.
  induction 1 as [|shard c shards contents Hserves _ IH];
    intros sq Hk Hf Ho [Hoff Hlim].
  - simpl. unfold slice. destruct (q_limit sq); by rewrite ?drop_nil, ?take_nil.
  - rewrite <- Hk in Hserves.
    rewrite (shard_query_loop_step _ _ _ _ _ Hserves).
    rewrite (run_query_of_stream q sq c Hf Ho). simpl.
    destruct (q_limit sq) as [l|] eqn:Hl; simpl.
    + assert ((l =? 0) = false) as -> by lia.
      case_leb_zero.
      * f_equal. by apply stitch_limit_reached.
      * unfold bind. rewrite IH; [|done|done|done|split; simpl; lia].
        simpl. unfold ret. f_equal. by apply stitch_limited.
    + unfold bind.
      rewrite IH; [|done|done|done|split; simpl; [lia|by rewrite Hl]].
      simpl. rewrite Hl. unfold ret. f_equal. by apply stitch_unlimited.
Qed.

Lemma shard_query_loop_stops q pre contents later w :
  Forall2 (serves w (q_key q)) pre contents ->
  forall sq l,
    q_key sq = q_key q ->
    q_filters sq = q_filters q -> q_orders sq = q_orders q ->
    0 <= q_offset sq -> q_limit sq = Some l -> 0 < l ->
    q_offset sq + l <=
      Z.of_nat (length (concat (map (result_stream q) contents))) ->
    ShardedDatastore.shard_query_loop (pre ++ later) sq w =
    ShardedDatastore.shard_query_loop pre sq w.
Proof.
  induction 1 as [|shard c shards contents Hserves _ IH];
    intros sq l Hk Hf Ho Hoff Hl Hpos Hlen.
  - simpl in Hlen. lia.
  - rewrite <- Hk in Hserves. rewrite <- app_comm_cons.
    rewrite !(shard_query_loop_step _ _ _ _ _ Hserves).
    rewrite (run_query_of_stream q sq c Hf Ho). simpl.
    rewrite Hl. simpl.
    assert ((l =? 0) = false) as -> by lia.
    simpl in Hlen. rewrite length_app in Hlen.
    case_leb_zero; [done|].
    unfold bind.
    erewrite IH; simpl; try done; try lia.
    rewrite length_take, !length_drop in *. lia.
Qed.

Lemma always_sorted (R : V -> V -> Prop) (l : list V) :
  (forall x y, R x y) -> Sorted R l.
Proof.
  intros HR. induction l as [|x l IH]; constructor; [done|].
  destruct l; constructor. apply HR.
Qed.

Lemma insert_sorted_head (le : V -> V -> bool) x y l :
  HdRel (fun a b => le a b = true) y l -> le y x = true ->
  HdRel (fun a b => le a b = true) y (insert_sorted le x l).
Proof.
  intros Hhd Hyx. destruct l as [|z l]; simpl; [by constructor|].
  destruct (le x z); constructor; [done|].
  by inversion Hhd.
Qed.

(** The sort of the reorder pass puts the items in order, for a comparison
    that relates every two items one way or the other. *)
Lemma sorted_by_sorted (le : V -> V -> bool) (l : list V) :
  (forall x y, le x y = true \/ le y x = true) ->
  Sorted (fun a b => le a b = true) (sorted_by le l).
Proof.
  intros Htotal. unfold sorted_by.
  induction l as [|x l IH]; simpl; [constructor|].
  induction IH as [|y l' Hsorted IH' Hhd]; simpl; [repeat constructor|].
  destruct (le x y) eqn:Hxy.
  - constructor; [by constructor|]. by constructor.
  - constructor; [done|]. apply insert_sorted_head; [done|].
    destruct (Htotal x y); congruence.
Qed.

(** C1 (amended): over shards that each answer the queries of the
    namespace with the cursor of the query over their contents, the
    generator of a query with a valid offset and limit yields exactly the
    slice [o : o + l] of the concatenation of the shards' result streams,
    in shard order.  [query] hands that sequence on when the query has no
    sort keys; when it has sort keys, [query] sorts the slice by them, so
    the items are the same and they come in the order of the sort keys.
    Each round runs the running query on one shard, then lowers its offset
    by the cursor's skipped count, not below zero, and its limit by the
    cursor's returned count.  Once the shards seen so far fill the limit,
    the stores that follow are not queried: the outcome is the same
    whatever they are. *)
Theorem sharded_query_slices q shards contents w :
  valid_query q ->
  Forall2 (serves w (q_key q)) shards contents ->
  let wanted :=
    slice (q_offset q) (q_limit q) (concat (map (result_stream q) contents)) in
  ShardedDatastore.shard_query_generator shards q w = Ret wanted w /\
  (exists cursor,
     ShardedDatastore.query shards q w = Ret cursor w /\
     c_items cursor =
       match q_orders q with
       | [] => wanted
       | _ :: _ => sorted_by (lex_le (q_orders q)) wanted
       end /\
     Permutation (c_items cursor) wanted /\
     ((forall x y, lex_le (q_orders q) x y = true \/
                   lex_le (q_orders q) y x = true) ->
      Sorted (fun a b => lex_le (q_orders q) a b = true) (c_items cursor))) /\
  (forall shard c rest sq,
     serves w (q_key sq) shard c ->
     ShardedDatastore.shard_query_loop (shard :: rest) sq w =
       let cursor := run_query sq c in
       let offset' := Z.max (q_offset sq - c_skipped cursor) 0 in
       match q_limit sq with
       | Some l =>
           if l =? 0 then
             (more <~ ShardedDatastore.shard_query_loop rest
                        (with_offset sq offset') ;;
              ret (c_items cursor ++ more)) w
           else if Z.max (l - c_returned cursor) 0 <=? 0 then
             Ret (c_items cursor) w
           else
             (more <~ ShardedDatastore.shard_query_loop rest
                        (with_limit (with_offset sq offset')
                           (Some (Z.max (l - c_returned cursor) 0))) ;;
              ret (c_items cursor ++ more)) w
       | None =>
           (more <~ ShardedDatastore.shard_query_loop rest
                      (with_offset sq offset') ;;
            ret (c_items cursor ++ more)) w
       end) /\
  (forall later l,
     q_limit q = Some l ->
     q_offset q + l <=
       Z.of_nat (length (concat (map (result_stream q) contents))) ->
     ShardedDatastore.shard_query_generator (shards ++ later) q w =
       Ret wanted w).
Proof.
  intros Hvalid Hserves wanted.
  assert (Hgen : ShardedDatastore.shard_query_generator shards q w = Ret wanted w).
  { unfold ShardedDatastore.shard_query_generator.
    by apply (shard_query_loop_slices q). }
  split; [done|]. split; [|split].
  - eexists. unfold ShardedDatastore.query, bind. rewrite Hgen.
    split; [done|]. simpl. split; [|split].
    + unfold apply_order. by destruct (q_orders q).
    + apply apply_order_perm.
    + intros Htotal. unfold apply_order.
      destruct (q_orders q) as [|o orders] eqn:Horders.
      * by apply always_sorted.
      * by apply sorted_by_sorted.
  - intros shard c rest sq Hs. by apply shard_query_loop_step.
  - intros later l Hl Hlen. rewrite <- Hgen.
    unfold ShardedDatastore.shard_query_generator.
    destruct Hvalid as [Hoff Hlim]. rewrite Hl in Hlim.
    by apply (shard_query_loop_stops q _ contents _ _ Hserves _ l).
Qed.

End Sharded.

(** The legacy dict store at an address of the heap serves, for each
    namespace, the values it holds there (nothing for a namespace it does
    not have), in the order in which the model's map enumerates them; for
    a namespace of one value that is the order of the source's dict. *)
Lemma dict_store_serves {V} (h : gmap nat (gmap string (gmap Key V)))
    (id : nat) it (key : Key) (contents : list V) :
  h !! id = Some it ->
  contents = default [] ((fun c : gmap Key V => (map_to_list c).*2)
                           <$> it !! str key) ->
  serves h key (basic.DictDatastore.new id) contents.
Proof.
  intros Hid -> q Hkey.
  change (basic.query (basic.DictDatastore.new id) q h)
    with (on_object id (basic.DictDatastore.query q) h).
  unfold on_object, basic.DictDatastore.query. rewrite Hid, Hkey.
  destruct (it !! str key) as [c|]; simpl; by rewrite insert_id.
Qed.

Section ShardedExamples.
Import basic examples.

Lemma sharded_query_slices_witness :
  ShardedDatastore.shard_query_generator (dict_stores [0; 1]%nat)
    (page_of_a 1 1) two_dicts = Ret [8%nat] two_dicts /\
  ShardedDatastore.shard_query_generator four_shards (page 3 4) tt =
    Ret [3; 4; 5; 6]%nat tt /\
  ShardedDatastore.shard_query_generator
    (take 3 four_shards ++ [failing_store 9 RuntimeError]) (page 1 3) tt =
    Ret [1; 2; 3]%nat tt.
Proof.
  split; [|split].
  - destruct (sharded_query_slices (page_of_a 1 1) (dict_stores [0; 1]%nat)
                [[7]; [8]]%nat two_dicts) as [Hgen _].
    + split; simpl; lia.
    + repeat constructor.
      * by apply (dict_store_serves two_dicts 0 holding_7).
      * by apply (dict_store_serves two_dicts 1 holding_8).
    + exact Hgen.
  - destruct (sharded_query_slices (page 3 4) four_shards four_contents tt)
      as [Hgen _].
    + split; simpl; lia.
    + by repeat constructor.
    + exact Hgen.
  - destruct (sharded_query_slices (page 1 3) (take 3 four_shards)
                (take 3 four_contents) tt) as (_ & _ & _ & Hstop).
    + split; simpl; lia.
    + by repeat constructor.
    + apply (Hstop [failing_store 9 RuntimeError] 3); [reflexivity|].
      simpl. lia.
Defined.

(** C1, as stated, fails for a query with a sort key: each shard's result
    stream is in the query's order, the slice of their concatenation is
    [3; 5; 1; 2], and [query] produces it sorted.  It also fails when a
    shard is itself a sharded store: the cursor of that shard reports no
    skipped items, so the offset is taken off the next shard again, and
    of [0; 1; 2] and [3; 4; 5] from the third item on the generator yields
    [2; 5]. *)
Lemma sharded_query_sorts_the_slice :
  result_stream by_value [3; 5]%nat = [3; 5]%nat /\
  result_stream by_value [1; 2]%nat = [1; 2]%nat /\
  c_items <$> (match ShardedDatastore.query two_shards by_value tt with
               | Ret cursor _ => Some cursor
               | Raise _ _ => None
               end) = Some [1; 2; 3; 5]%nat /\
  slice (q_offset by_value) (q_limit by_value) ([3; 5] ++ [1; 2])%nat =
    [3; 5; 1; 2]%nat /\
  [1; 2; 3; 5]%nat ≠ [3; 5; 1; 2]%nat /\
  query inner_sharded (with_offset from_third 0) tt =
    Ret (mkCursor [0; 1; 2]%nat 0 3) tt /\
  query inner_sharded from_third tt = Ret (mkCursor [2%nat] 0 1) tt /\
  ShardedDatastore.shard_query_generator nested_shards from_third tt =
    Ret [2; 5]%nat tt /\
  slice (q_offset from_third) (q_limit from_third)
        ([0; 1; 2] ++ [3; 4; 5])%nat = [2; 3; 4; 5]%nat /\
  [2; 5]%nat ≠ [2; 3; 4; 5]%nat.
Proof. repeat split; discriminate. Qed.

End ShardedExamples.

(** * Further properties *)

(** ** Writing to a dict store *)

Section DictWrites.
Context {V : Type}.
Implicit Types (it : gmap string (gmap Key V)) (key : Key).

Lemma binary_put_spec key (data : V) it :
  binarystore.DictDatastore._put key (stream.stream_of data) it =
    Ret tt (<[str (path key) :=
               <[key := data]> (default ∅ (it !! str (path key)))]> it).
Proof.
  unfold binarystore.DictDatastore._put, bind. simpl.
  rewrite binary_collection_spec.
  unfold pydict.setitem. rewrite with_collection_lookup.
  unfold with_collection.
  destruct (it !! str (path key)); [done|]. simpl.
  by rewrite insert_insert_eq.
Qed.

Lemma stored_after_insert key key' (v : V) it :
  stored (<[str (path key) :=
             <[key := v]> (default ∅ (it !! str (path key)))]> it) key' =
    if decide (key' = key) then Some v else stored it key'.
Proof.
  unfold stored. destruct (decide (key' = key)) as [->|Hne].
  - rewrite lookup_insert_eq. simpl. by rewrite lookup_insert_eq.
  - destruct (decide (str (path key) = str (path key'))) as [Heq|Hns].
    + rewrite <- Heq, lookup_insert_eq. simpl. rewrite lookup_insert_ne by done.
      by destruct (it !! str (path key)).
    + by rewrite lookup_insert_ne.
Qed.

Lemma with_collection_present key it c :
  it !! str (path key) = Some c -> with_collection key it = it.
Proof. intros Hc. unfold with_collection. by rewrite Hc. Qed.

(** X1: a [put] of a value on either dict store returns, makes the key
    hold that value, and leaves the value held under every other key as it
    was. *)
Theorem dict_put_lookup it key key' (v : V) :
  (exists it', basic.DictDatastore.put key (Some v) it = Ret tt it' /\
     stored it' key' = if decide (key' = key) then Some v else stored it key') /\
  (exists it', binarystore.DictDatastore._put key
                 (stream.receive_stream_from (stream.raw v)) it = Ret tt it' /\
     stored it' key' = if decide (key' = key) then Some v else stored it key').
Proof.
  split.
  - rewrite basic_put_value_spec. eexists. split; [done|].
    apply stored_after_insert.
  - simpl. rewrite binary_put_spec.
    eexists. split; [done|]. apply stored_after_insert.
Qed.

(** X2: once the binary dict store has taken a [put], [get] returns a
    stream of exactly the bytes that were put and [contains] answers true,
    and neither read changes the state any more. *)
Theorem binary_put_then_read it key (data : V) :
  exists it',
    binarystore.DictDatastore._put key (stream.stream_of data) it = Ret tt it' /\
    binarystore.DictDatastore.get key it' = Ret (stream.stream_of data) it' /\
    (s <~ binarystore.DictDatastore.get key ;; stream.collect s) it' =
      Ret data it' /\
    binarystore.DictDatastore.contains key it' = Ret true it'.
Proof.
  rewrite binary_put_spec. eexists. split; [done|].
  set (it' := <[_ := _]> it).
  assert (Hs : stored it' key = Some data).
  { unfold it'. rewrite stored_after_insert. by rewrite decide_True. }
  assert (Hw : with_collection key it' = it').
  { eapply with_collection_present. unfold it'. apply lookup_insert_eq. }
  unfold bind. rewrite binary_get_spec, binary_contains_spec, Hs, Hw.
  repeat split; try done.
Qed.

Lemma insert_then_delete_restores key (v : V) it :
  stored it key = None ->
  it !! str (path key) ≠ Some ∅ ->
  let c := <[key := v]> (default ∅ (it !! str (path key))) in
  (if Nat.eqb (size (base.delete key c)) 0
   then base.delete (str (path key)) (<[str (path key) := c]> it)
   else <[str (path key) := base.delete key c]> (<[str (path key) := c]> it))
  = it.
Proof.
  intros Hs Hne c. unfold c. unfold stored in Hs.
  destruct (it !! str (path key)) as [c0|] eqn:Hns; simpl in *.
  - rewrite delete_insert_id by done.
    assert (Hsz : size c0 ≠ 0%nat).
    { apply map_size_non_empty_iff. congruence. }
    apply Nat.eqb_neq in Hsz. rewrite Hsz.
    rewrite insert_insert_eq. by apply insert_id.
  - rewrite delete_insert_id by done. rewrite map_size_empty. simpl.
    by apply delete_insert_id.
Qed.

(** X3: on either dict store, writing a key that was not held and then
    deleting it leaves the items mapping exactly as it was before the
    write, provided the namespace of the key had no empty collection left
    in it. *)
Theorem dict_put_delete_restores it key (v : V) :
  stored it key = None ->
  it !! str (path key) ≠ Some ∅ ->
  (basic.DictDatastore.put key (Some v) ;;; basic.DictDatastore.delete key) it
    = Ret tt it /\
  (binarystore.DictDatastore._put key (stream.stream_of v) ;;;
   binarystore.DictDatastore.delete key) it = Ret tt it.
Proof.
  intros Hs Hne. unfold bind.
  rewrite basic_put_value_spec, binary_put_spec.
  rewrite basic_delete_spec, binary_delete_spec.
  rewrite !lookup_insert_eq. simpl. rewrite ?lookup_insert_eq.
  by rewrite (insert_then_delete_restores key v it Hs Hne).
Qed.

(** The length of a store when one collection is replaced, added or
    removed. *)
Lemma len_insert_present it (ns : string) (c c' : gmap Key V) :
  it !! ns = Some c ->
  (basic.DictDatastore.__len__ (<[ns := c']> it) + size c =
   basic.DictDatastore.__len__ it + size c')%nat.
Proof.
  intros Hc. unfold basic.DictDatastore.__len__.
  rewrite (map_fold_delete_L _ _ ns c it); [|intros; lia|done].
  rewrite <- insert_delete_eq.
  rewrite map_fold_insert_L; [lia|intros; lia|].
  apply lookup_delete_eq.
Qed.

Lemma len_insert_absent it (ns : string) (c' : gmap Key V) :
  it !! ns = None ->
  basic.DictDatastore.__len__ (<[ns := c']> it) =
  (basic.DictDatastore.__len__ it + size c')%nat.
Proof.
  intros Hc. unfold basic.DictDatastore.__len__.
  rewrite map_fold_insert_L; [lia|intros; lia|done].
Qed.

Lemma len_delete_present it (ns : string) (c : gmap Key V) :
  it !! ns = Some c ->
  (basic.DictDatastore.__len__ (base.delete ns it) + size c =
   basic.DictDatastore.__len__ it)%nat.
Proof.
  intros Hc. unfold basic.DictDatastore.__len__.
  rewrite (map_fold_delete_L _ _ ns c it); [lia|intros; lia|done].
Qed.

Lemma len_after_put it key (v : V) :
  basic.DictDatastore.__len__
    (<[str (path key) :=
        <[key := v]> (default ∅ (it !! str (path key)))]> it) =
  (basic.DictDatastore.__len__ it +
   match stored it key with Some _ => 0 | None => 1 end)%nat.
Proof.
  unfold stored.
  destruct (it !! str (path key)) as [c|] eqn:Hns; simpl.
  - pose proof (len_insert_present it _ c (<[key := v]> c) Hns) as Hlen.
    rewrite map_size_insert in Hlen.
    destruct (c !! key); simpl in *; lia.
  - rewrite len_insert_absent by done.
    rewrite map_size_insert, lookup_empty, map_size_empty. lia.
Qed.

Lemma len_after_delete it key c :
  it !! str (path key) = Some c -> is_Some (c !! key) ->
  S (basic.DictDatastore.__len__
       (if Nat.eqb (size (base.delete key c)) 0
        then base.delete (str (path key)) it
        else <[str (path key) := base.delete key c]> it)) =
  basic.DictDatastore.__len__ it.
Proof.
  intros Hns Hk.
  pose proof (map_size_delete_Some key c Hk) as Hsz.
  assert (Hpos : size c ≠ 0%nat).
  { destruct Hk as [x Hx]. by eapply map_size_ne_0_lookup_2. }
  destruct (Nat.eqb _ 0) eqn:Hz.
  - apply Nat.eqb_eq in Hz.
    pose proof (len_delete_present it _ c Hns). lia.
  - pose proof (len_insert_present it _ c (base.delete key c) Hns). lia.
Qed.

(** X4: [__len__] counts the keys held.  On either dict store a [put]
    adds one when the key was not held and nothing when it was; a [delete]
    takes one away when the key was held and nothing when it was not. *)
Theorem dict_len_counts_keys it key (v : V) :
  let held_before := match stored it key with Some _ => 1 | None => 0 end%nat in
  (basic.DictDatastore.__len__
     (heap_of (basic.DictDatastore.put key (Some v) it)) + held_before =
   basic.DictDatastore.__len__ it + 1)%nat /\
  (binarystore.DictDatastore.__len__
     (heap_of (binarystore.DictDatastore._put key (stream.stream_of v) it))
     + held_before =
   binarystore.DictDatastore.__len__ it + 1)%nat /\
  (basic.DictDatastore.__len__
     (heap_of (basic.DictDatastore.delete key it)) + held_before =
   basic.DictDatastore.__len__ it)%nat /\
  (binarystore.DictDatastore.__len__
     (heap_of (binarystore.DictDatastore.delete key it)) + held_before =
   binarystore.DictDatastore.__len__ it)%nat.
Proof.
  intros held_before.
  change (@binarystore.DictDatastore.__len__ V)
    with (@basic.DictDatastore.__len__ V).
  rewrite basic_put_value_spec, binary_put_spec.
  rewrite basic_delete_spec, binary_delete_spec. simpl.
  rewrite len_after_put. unfold held_before, stored.
  destruct (it !! str (path key)) as [c|] eqn:Hns; simpl.
  - destruct (c !! key) as [x|] eqn:Hk; simpl.
    + pose proof (len_after_delete it key c Hns (mk_is_Some _ _ Hk)).
      repeat split; lia.
    + repeat split; lia.
  - pose proof (len_with_collection key it) as Hw.
    unfold with_collection in Hw. rewrite Hns in Hw.
    repeat split; lia.
Qed.

Lemma tidy_after_put it key (v : V) :
  tidy it ->
  tidy (<[str (path key) :=
           <[key := v]> (default ∅ (it !! str (path key)))]> it).
Proof.
  intros Ht. apply map_Forall_insert_2; [|done].
  apply insert_non_empty.
Qed.

Lemma tidy_after_delete it key c :
  tidy it -> it !! str (path key) = Some c ->
  tidy (if Nat.eqb (size (base.delete key c)) 0
        then base.delete (str (path key)) it
        else <[str (path key) := base.delete key c]> it).
Proof.
  intros Ht Hns. destruct (Nat.eqb _ 0) eqn:Hz.
  - by apply map_Forall_delete.
  - apply map_Forall_insert_2; [|done].
    apply map_size_non_empty_iff. by apply Nat.eqb_neq.
Qed.

(** X5: a dict store none of whose namespaces has an empty collection
    stays so under every [put] and under every [delete] of a key it holds:
    [delete] drops the collection it has emptied. *)
Theorem dict_writes_keep_tidy it key (v : V) :
  tidy it ->
  tidy (heap_of (basic.DictDatastore.put key (Some v) it)) /\
  tidy (heap_of (binarystore.DictDatastore._put key (stream.stream_of v) it)) /\
  match stored it key with
  | Some _ =>
      tidy (heap_of (basic.DictDatastore.delete key it)) /\
      tidy (heap_of (binarystore.DictDatastore.delete key it))
  | None => True
  end.
Proof.
  intros Ht.
  rewrite basic_put_value_spec, binary_put_spec.
  rewrite basic_delete_spec, binary_delete_spec. simpl.
  split; [by apply tidy_after_put|]. split; [by apply tidy_after_put|].
  unfold stored.
  destruct (it !! str (path key)) as [c|] eqn:Hns; simpl; [|done].
  destruct (c !! key) eqn:Hk; [|done]. simpl.
  split; by apply tidy_after_delete.
Qed.

End DictWrites.

Lemma dict_put_delete_restores_witness :
  (basic.DictDatastore.put examples.key_ab (Some 7%nat) ;;;
   basic.DictDatastore.delete examples.key_ab) (∅ : gmap string (gmap Key nat))
    = Ret tt ∅.
Proof.
  apply (dict_put_delete_restores ∅ examples.key_ab 7%nat); done.
Defined.

Lemma dict_writes_keep_tidy_witness :
  tidy (heap_of (basic.DictDatastore.delete examples.key_ab examples.holding_7)).
Proof.
  destruct (dict_writes_keep_tidy examples.holding_7 examples.key_ab 7%nat)
    as (_ & _ & Hd).
  - apply map_Forall_insert_2; [apply insert_non_empty|apply map_Forall_empty].
  - exact (proj1 Hd).
Defined.

(** ** Dict stores as objects of a heap *)

Section DictHeap.
Context {V : Type}.
Implicit Types (h : gmap nat (gmap string (gmap Key V))) (key : Key).
Implicit Types (it : gmap string (gmap Key V)) (id : nat) (ids : list nat).

Import basic.

Lemma held_insert h id it key id' :
  held (<[id := it]> h) key id' =
    if decide (id' = id) then stored it key else held h key id'.
Proof.
  unfold held. destruct (decide (id' = id)) as [->|Hne].
  - by rewrite lookup_insert_eq.
  - by rewrite lookup_insert_ne.
Qed.

Lemma allocated_insert h id it ids :
  allocated h ids -> allocated (<[id := it]> h) ids.
Proof.
  unfold allocated. intros Hal. eapply Forall_impl; [exact Hal|].
  intros id' [x Hx]. simpl.
  destruct (decide (id' = id)) as [->|Hne].
  - rewrite lookup_insert_eq. eauto.
  - rewrite lookup_insert_ne by done. eauto.
Qed.

Lemma cell_get h id it key :
  h !! id = Some it ->
  get (DictDatastore.new id) key h =
    Ret (stored it key) (<[id := with_collection key it]> h).
Proof.
  intros Hid. simpl. unfold on_object. by rewrite Hid, basic_get_spec.
Qed.

Lemma cell_contains h id it key :
  h !! id = Some it ->
  contains (DictDatastore.new id) key h =
    Ret (bool_decide (is_Some (stored it key)))
        (<[id := with_collection key it]> h).
Proof.
  intros Hid. simpl. unfold on_object. by rewrite Hid, basic_contains_spec.
Qed.

Lemma cell_put h id it key (v : V) :
  h !! id = Some it ->
  put (DictDatastore.new id) key (Some v) h =
    Ret tt (<[id := <[str (path key) :=
                       <[key := v]> (default ∅ (it !! str (path key)))]> it]> h).
Proof.
  intros Hid.
  change (put (DictDatastore.new id) key (Some v) h)
    with (on_object id (DictDatastore.put key (Some v)) h).
  unfold on_object. by rewrite Hid, basic_put_value_spec.
Qed.

Lemma cell_delete h id it key :
  h !! id = Some it ->
  delete (DictDatastore.new id) key h =
    Ret tt (<[id := heap_of (DictDatastore.delete key it)]> h).
Proof.
  intros Hid.
  change (delete (DictDatastore.new id) key h)
    with (on_object id (DictDatastore.delete key) h).
  unfold on_object. rewrite Hid. by rewrite basic_delete_spec.
Qed.

Lemma stored_after_delete it key key' :
  stored (heap_of (DictDatastore.delete key it)) key' =
    if decide (key' = key) then None else stored it key'.
Proof.
  destruct (decide (key' = key)) as [->|Hne].
  - apply basic_delete_stored.
  - by apply basic_delete_other.
Qed.

(** A scan of dict tiers none of which holds the key: every [get] answers
    [None], and what the tiers hold is as before. *)
Lemma dict_all_miss ids key : forall h,
  allocated h ids ->
  Forall (fun id => held h key id = None) ids ->
  exists h1,
    all_miss key (dict_stores ids) h h1 /\
    (forall id' key', held h1 key' id' = held h key' id') /\
    (forall ids', allocated h ids' -> allocated h1 ids').
Proof.
  induction ids as [|id ids IH]; intros h Halloc Hnone.
  - exists h. split; [constructor|]. done.
  - apply Forall_cons in Halloc as [[it Hid] Halloc].
    apply Forall_cons in Hnone as [Hmiss Hnone].
    assert (Hs : stored it key = None).
    { unfold held in Hmiss. by rewrite Hid in Hmiss. }
    set (h0 := <[id := with_collection key it]> h).
    assert (Hheld : forall id' key', held h0 key' id' = held h key' id').
    { intros id' key'. unfold h0. rewrite held_insert.
      destruct (decide (id' = id)) as [->|]; [|done].
      rewrite stored_with_collection. unfold held. by rewrite Hid. }
    destruct (IH h0) as (h1 & Hm & Hh & Ha).
    { by apply allocated_insert. }
    { eapply Forall_impl; [exact Hnone|]. intros id' Hx. simpl in Hx.
      by rewrite Hheld. }
    exists h1. split; [|split].
    + apply (all_miss_cons _ _ _ _ h0); [|done].
      rewrite (cell_get h id it key Hid). by rewrite Hs.
    + intros id' key'. by rewrite Hh, Hheld.
    + intros ids' Hal. apply Ha. by apply allocated_insert.
Qed.

(** A write to every dict tier of a list: each takes it, and afterwards
    the tiers of the list hold the value under the key. *)
Lemma dict_all_put ids key (v : V) : forall h,
  allocated h ids ->
  exists h1,
    all_put key (Some v) (dict_stores ids) h h1 /\
    (forall id' key',
       held h1 key' id' =
         if decide (id' ∈ ids /\ key' = key) then Some v
         else held h key' id') /\
    (forall ids', allocated h ids' -> allocated h1 ids').
Proof.
  induction ids as [|id ids IH]; intros h Halloc.
  - exists h. split; [constructor|]. split; [|done].
    intros id' key'. rewrite decide_False; [done|].
    intros [Hin _]. by apply not_elem_of_nil in Hin.
  - apply Forall_cons in Halloc as [[it Hid] Halloc].
    set (h0 := <[id := <[str (path key) :=
                   <[key := v]> (default ∅ (it !! str (path key)))]> it]> h).
    destruct (IH h0) as (h1 & Hp & Hh & Ha).
    { by apply allocated_insert. }
    exists h1. split; [|split].
    + apply (all_put_cons _ _ _ _ _ h0); [|done].
      by rewrite (cell_put h id it key v Hid).
    + intros id' key'. rewrite Hh. unfold h0.
      rewrite held_insert, stored_after_insert.
      destruct (decide (id' ∈ ids /\ key' = key)) as [[Hin ->]|Hn].
      * rewrite decide_True; [done|]. split; [by apply list_elem_of_further|done].
      * destruct (decide (id' = id)) as [->|Hne].
        -- destruct (decide (key' = key)) as [->|Hk].
           ++ rewrite decide_True; [done|]. split; [apply list_elem_of_here|done].
           ++ rewrite decide_False by (by intros [_ ?]).
              unfold held. by rewrite Hid.
        -- rewrite decide_False; [done|]. intros [Hin ->].
           apply elem_of_cons in Hin as [?|?]; [done|]. by apply Hn.
    + intros ids' Hal. apply Ha. by apply allocated_insert.
Qed.

End DictHeap.

(** ** The other loops of the tiered store *)

Section TieredLoops.
Context {W V : Type}.
Implicit Types (store : basic.Datastore W V) (key : Key) (w : W).

Import basic.

Lemma contains_loop_cons store rest key w :
  TieredDatastore.contains_loop (store :: rest) key w =
    match contains store key w with
    | Ret true w' => Ret true w'
    | Ret false w' => TieredDatastore.contains_loop rest key w'
    | Raise e w' => Raise e w'
    end.
Proof.
  simpl. unfold bind. by destruct (contains store key w) as [[|] ?|].
Qed.

Lemma delete_loop_cons store rest key w :
  TieredDatastore.delete_loop (store :: rest) key w =
    match delete store key w with
    | Ret _ w' => TieredDatastore.delete_loop rest key w'
    | Raise e w' => Raise e w'
    end.
Proof. simpl. unfold bind. by destruct (delete store key w). Qed.

End TieredLoops.

(** ** The tiered store over dict stores *)

Section TieredDicts.
Context {V : Type}.
Implicit Types (h : gmap nat (gmap string (gmap Key V))) (key : Key).
Implicit Types (it : gmap string (gmap Key V)) (id : nat) (ids : list nat).

Import basic.

Lemma held_cell h key id (v : V) :
  held h key id = Some v ->
  exists it, h !! id = Some it /\ stored it key = Some v /\
             with_collection key it = it.
Proof.
  unfold held. destruct (h !! id) as [it|] eqn:Hid; [|done].
  simpl. intros Hs. exists it. repeat split; try done.
  unfold stored in Hs. unfold with_collection.
  by destruct (it !! str (path key)).
Qed.

(** A tiered [get] whose first tier holds the key. *)
Lemma tiered_get_first_tier id ids key (v : V) h :
  held h key id = Some v ->
  TieredDatastore.get (dict_stores (id :: ids)) key h = Ret (Some v) h.
Proof.
  intros (it & Hid & Hs & Hw)%held_cell.
  unfold TieredDatastore.get, dict_stores, bind. rewrite fmap_cons.
  pose proof (first_found_hit [] (DictDatastore.new id)
                (DictDatastore.new <$> ids) key v h h h) as Hfound.
  pose proof (add_to_lower_stops [] (DictDatastore.new id)
                (DictDatastore.new <$> ids) key v h h) as Hstop.
  rewrite app_nil_l in Hfound, Hstop.
  rewrite Hfound; [|constructor|].
  - rewrite Hstop; [done|constructor|constructor].
  - rewrite (cell_get h id it key Hid), Hs, Hw.
    by rewrite (insert_id h id it Hid).
Qed.

Lemma tiered_get_hit_on_dicts pre id post key (v : V) h :
  allocated h pre ->
  Forall (fun id' => held h key id' = None) pre ->
  held h key id = Some v ->
  exists h',
    TieredDatastore.get (dict_stores (pre ++ id :: post)) key h
      = Ret (Some v) h' /\
    (forall id' key',
       held h' key' id' =
         if decide (id' ∈ pre /\ key' = key) then Some v
         else held h key' id').
Proof.
  intros Halloc Hnone Hhit.
  destruct (dict_all_miss pre key h Halloc Hnone) as (h1 & Hmiss & Hh1 & Ha1).
  assert (Hhit1 : held h1 key id = Some v) by (by rewrite Hh1).
  destruct (held_cell h1 key id v Hhit1) as (it & Hid & Hs & Hw).
  destruct (dict_all_put pre key v h1 (Ha1 _ Halloc)) as (h3 & Hput & Hh3 & _).
  exists h3. split.
  - unfold TieredDatastore.get, dict_stores, bind.
    rewrite fmap_app, fmap_cons.
    rewrite (first_found_hit _ (DictDatastore.new id) _ key v h h1 h1 Hmiss).
    + rewrite (add_to_lower_stops _ _ _ key v h1 h3); [done| |done].
      unfold other_instances. apply Forall_fmap.
      eapply Forall_impl; [exact Hnone|]. intros id' Hn. simpl in *.
      intros ->. congruence.
    + rewrite (cell_get h1 id it key Hid), Hs, Hw.
      by rewrite (insert_id h1 id it Hid).
  - intros id' key'. rewrite Hh3. by rewrite Hh1.
Qed.

(** X6: [put] on a tiered store over dict stores returns, and afterwards
    every tier holds the value under the key; nothing else that the tiers,
    or any other dict store of the heap, hold is changed. *)
Theorem tiered_put_reaches_every_tier ids key (v : V) h :
  allocated h ids ->
  exists h',
    TieredDatastore.put (dict_stores ids) key (Some v) h = Ret tt h' /\
    (forall id key',
       held h' key' id =
         if decide (id ∈ ids /\ key' = key) then Some v else held h key' id).
Proof.
  intros Halloc.
  destruct (dict_all_put ids key v h Halloc) as (h' & Hput & Hheld & _).
  exists h'. split; [|done].
  by apply put_loop_all.
Qed.

(** X7: a tiered [get] over dict stores whose first holder of the key is
    some tier returns the value held there; afterwards every earlier tier
    holds it too and nothing else has changed, and a second [get] returns
    the same value and changes the heap no more. *)
Theorem tiered_get_fills_earlier_tiers pre id post key (v : V) h :
  allocated h pre ->
  Forall (fun id' => held h key id' = None) pre ->
  held h key id = Some v ->
  exists h',
    TieredDatastore.get (dict_stores (pre ++ id :: post)) key h
      = Ret (Some v) h' /\
    (forall id' key',
       held h' key' id' =
         if decide (id' ∈ pre /\ key' = key) then Some v
         else held h key' id') /\
    TieredDatastore.get (dict_stores (pre ++ id :: post)) key h'
      = Ret (Some v) h'.
Proof.
  intros Halloc Hnone Hhit.
  destruct (tiered_get_hit_on_dicts pre id post key v h Halloc Hnone Hhit)
    as (h' & Hget & Hheld).
  exists h'. split; [done|]. split; [done|].
  destruct pre as [|p pre]; simpl.
  - apply tiered_get_first_tier. rewrite Hheld.
    rewrite decide_False; [done|]. intros [Hin _]. by apply elem_of_nil in Hin.
  - apply tiered_get_first_tier. rewrite Hheld.
    rewrite decide_True; [done|]. split; [apply list_elem_of_here|done].
Qed.

Lemma tiered_contains_on_dicts ids key : forall h,
  allocated h ids ->
  exists h',
    TieredDatastore.contains (dict_stores ids) key h =
      Ret (bool_decide (Exists (fun id => is_Some (held h key id)) ids)) h' /\
    (forall id' key', held h' key' id' = held h key' id').
Proof.
  induction ids as [|id ids IH]; intros h Halloc.
  - exists h. split; [|done].
    by rewrite bool_decide_eq_false_2 by (by intros ?%Exists_nil).
  - apply Forall_cons in Halloc as [[it Hid] Halloc].
    set (h0 := <[id := with_collection key it]> h).
    assert (Hheld : forall id' key', held h0 key' id' = held h key' id').
    { intros id' key'. unfold h0. rewrite held_insert.
      destruct (decide (id' = id)) as [->|]; [|done].
      rewrite stored_with_collection. unfold held. by rewrite Hid. }
    unfold TieredDatastore.contains, dict_stores. rewrite fmap_cons.
    rewrite contains_loop_cons, (cell_contains h id it key Hid). fold h0.
    assert (Hhere : held h key id = stored it key).
    { unfold held. by rewrite Hid. }
    destruct (stored it key) as [v|] eqn:Hs.
    + rewrite bool_decide_eq_true_2 by eauto.
      exists h0. split; [|done].
      rewrite bool_decide_eq_true_2; [done|].
      apply Exists_cons_hd. rewrite Hhere. eauto.
    + rewrite bool_decide_eq_false_2 by (by intros [? ?]).
      destruct (IH h0) as (h' & Hc & Hh'); [by apply allocated_insert|].
      exists h'. split.
      * unfold TieredDatastore.contains, dict_stores in Hc. rewrite Hc.
        f_equal. apply bool_decide_ext. rewrite Exists_cons.
        rewrite Hhere. split.
        -- intros Hex. right. eapply Exists_impl; [exact Hex|].
           intros id'. simpl. by rewrite Hheld.
        -- intros [[? ?]|Hex]; [done|]. eapply Exists_impl; [exact Hex|].
           intros id'. simpl. by rewrite Hheld.
      * intros id' key'. by rewrite Hh', Hheld.
Qed.

(** The tiers split at the first one that holds the key, when there is
    one. *)
Lemma first_holder ids key h :
  Exists (fun id => is_Some (held h key id)) ids ->
  exists pre id post (v : V),
    ids = pre ++ id :: post /\
    Forall (fun id' => held h key id' = None) pre /\
    held h key id = Some v.
Proof.
  induction 1 as [id ids [v Hv]|id ids _ IH].
  - exists [], id, ids, v. by repeat split.
  - destruct (held h key id) as [v|] eqn:Hid.
    + exists [], id, ids, v. by repeat split.
    + destruct IH as (pre & id' & post & v & -> & Hpre & Hv).
      exists (id :: pre), id', post, v. repeat split; try done.
      by apply Forall_cons.
Qed.

(** X8: over dict stores, the tiered [contains] answers true exactly when
    some tier holds the key, and so exactly when the tiered [get] returns a
    value; unlike [get] it leaves what every tier holds as it was. *)
Theorem tiered_contains_agrees_with_get ids key h :
  allocated h ids ->
  exists (r : option V) h1 h2,
    TieredDatastore.get (dict_stores ids) key h = Ret r h1 /\
    TieredDatastore.contains (dict_stores ids) key h
      = Ret (bool_decide (is_Some r)) h2 /\
    (is_Some r <-> Exists (fun id => is_Some (held h key id)) ids) /\
    (forall id' key', held h2 key' id' = held h key' id').
Proof.
  intros Halloc.
  destruct (tiered_contains_on_dicts ids key h Halloc) as (h2 & Hc & Hh2).
  destruct (decide (Exists (fun id => is_Some (held h key id)) ids))
    as [Hex|Hno].
  - destruct (first_holder ids key h Hex)
      as (pre & id & post & v & -> & Hpre & Hv).
    apply Forall_app in Halloc as [Hapre _].
    destruct (tiered_get_hit_on_dicts pre id post key v h Hapre Hpre Hv)
      as (h1 & Hget & _).
    exists (Some v), h1, h2. split; [done|]. split; [|split; [|done]].
    + rewrite Hc. f_equal. apply bool_decide_ext. split; eauto.
    + split; eauto.
  - assert (Hnone : Forall (fun id => held h key id = None) ids).
    { apply Forall_forall. intros id Hin.
      destruct (held h key id) eqn:Hid; [|done].
      exfalso. apply Hno. apply Exists_exists. exists id. split; eauto. }
    destruct (dict_all_miss ids key h Halloc Hnone) as (h1 & Hmiss & _).
    exists None, h1, h2. split; [|split; [|split; [|done]]].
    + unfold TieredDatastore.get, bind.
      by rewrite (first_found_none _ _ _ _ Hmiss).
    + rewrite Hc. f_equal. apply bool_decide_ext.
      split; [done|]. by intros ?%is_Some_None.
    + split; [by intros [? ?]|done].
Qed.

(** X9: [delete] on a tiered store over dict stores returns, whether or
    not the tiers held the key, and afterwards no tier holds it; nothing
    else that any dict store of the heap holds is changed. *)
Theorem tiered_delete_clears_every_tier ids key : forall h,
  allocated h ids ->
  exists h',
    TieredDatastore.delete (dict_stores ids) key h = Ret tt h' /\
    (forall id key',
       held h' key' id =
         if decide (id ∈ ids /\ key' = key) then None else held h key' id).
Proof.
  unfold TieredDatastore.delete.
  induction ids as [|id ids IH]; intros h Halloc.
  - exists h. split; [done|]. intros id key'.
    rewrite decide_False; [done|]. intros [Hin _]. by apply elem_of_nil in Hin.
  - apply Forall_cons in Halloc as [[it Hid] Halloc].
    set (h0 := <[id := heap_of (DictDatastore.delete key it)]> h).
    destruct (IH h0) as (h' & Hd & Hh'); [by apply allocated_insert|].
    exists h'. split.
    + unfold dict_stores. rewrite fmap_cons.
      rewrite delete_loop_cons, (cell_delete h id it key Hid). exact Hd.
    + intros id' key'. rewrite Hh'. unfold h0.
      rewrite held_insert, stored_after_delete.
      destruct (decide (id' ∈ ids /\ key' = key)) as [[Hin ->]|Hn].
      * rewrite decide_True; [done|]. split; [by apply list_elem_of_further|done].
      * destruct (decide (id' = id)) as [->|Hne].
        -- destruct (decide (key' = key)) as [->|Hk].
           ++ rewrite decide_True; [done|]. split; [apply list_elem_of_here|done].
           ++ rewrite decide_False by (by intros [_ ?]).
              unfold held. by rewrite Hid.
        -- rewrite decide_False; [done|]. intros [Hin ->].
           apply elem_of_cons in Hin as [?|?]; [done|]. by apply Hn.
Qed.

End TieredDicts.

Lemma tiered_put_reaches_every_tier_witness :
  exists h',
    basic.TieredDatastore.put (dict_stores [0; 1]%nat) examples.key_ab
      (Some 7%nat) examples.three_empty = Ret tt h' /\
    held h' examples.key_ab 1%nat = Some 7%nat /\
    held h' examples.key_ab 2%nat = None.
Proof.
  destruct (tiered_put_reaches_every_tier [0; 1]%nat examples.key_ab 7%nat
              examples.three_empty) as (h' & Hput & Hheld).
  - repeat constructor; eexists; reflexivity.
  - exists h'. split; [exact Hput|]. rewrite !Hheld. split; reflexivity.
Defined.

Lemma tiered_get_fills_earlier_tiers_witness :
  exists h',
    basic.TieredDatastore.get (dict_stores ([0%nat] ++ 1%nat :: [])) examples.key_ab
      examples.only_slow = Ret (Some 7%nat) h' /\
    held h' examples.key_ab 0%nat = Some 7%nat.
Proof.
  destruct (tiered_get_fills_earlier_tiers [0%nat] 1%nat [] examples.key_ab
              7%nat examples.only_slow) as (h' & Hget & Hheld & _).
  - repeat constructor; eexists; reflexivity.
  - repeat constructor.
  - reflexivity.
  - exists h'. split; [exact Hget|]. rewrite Hheld. reflexivity.
Defined.

Lemma tiered_contains_agrees_with_get_witness :
  exists (r : option nat) h1 h2,
    basic.TieredDatastore.get (dict_stores [0; 1]%nat) examples.key_ab
      examples.only_slow = Ret r h1 /\
    basic.TieredDatastore.contains (dict_stores [0; 1]%nat) examples.key_ab
      examples.only_slow = Ret (bool_decide (is_Some r)) h2.
Proof.
  destruct (tiered_contains_agrees_with_get [0; 1]%nat examples.key_ab
              examples.only_slow) as (r & h1 & h2 & Hget & Hc & _).
  - repeat constructor; eexists; reflexivity.
  - exists r, h1, h2. split; [exact Hget|exact Hc].
Defined.

Lemma tiered_delete_clears_every_tier_witness :
  exists h',
    basic.TieredDatastore.delete (dict_stores [0; 1]%nat) examples.key_ab
      examples.both = Ret tt h' /\
    held h' examples.key_ab 0%nat = None /\
    held h' examples.key_ab 1%nat = None.
Proof.
  destruct (tiered_delete_clears_every_tier [0; 1]%nat examples.key_ab
              examples.both) as (h' & Hdel & Hheld).
  - repeat constructor; eexists; reflexivity.
  - exists h'. split; [exact Hdel|]. rewrite !Hheld. split; reflexivity.
Defined.

(** ** Tiered queries and sharded routing *)

Section Routing.
Context {W V : Type}.
Implicit Types (stores : list (basic.Datastore W V)) (key : Key) (w : W).

Import basic.

(** X10: a tiered [query] goes to the last tier alone, whatever the tiers
    before it are; on a tiered store without tiers it raises
    [IndexError]. *)
Theorem tiered_query_asks_last_tier (q : Query V) w :
  TieredDatastore.query [] q w = Raise IndexError w /\
  (forall stores store,
     TieredDatastore.query (stores ++ [store]) q w = query store q w).
Proof.
  split; [done|]. intros stores store.
  unfold TieredDatastore.query. by rewrite last_snoc.
Qed.

Lemma hash_index_in_range (n : nat) (z : Z) :
  n ≠ 0%nat -> (Z.to_nat (z `mod` Z.of_nat n) < n)%nat.
Proof.
  intros Hn. pose proof (Z.mod_pos_bound z (Z.of_nat n)). lia.
Qed.

Lemma shard_in_range stores (shardingfn : Key -> Z) key :
  stores ≠ [] ->
  (Z.to_nat (shardingfn key `mod` Z.of_nat (length stores)) < length stores)%nat.
Proof.
  intros Hne.
  assert (0 < Z.of_nat (length stores)) by (destruct stores; [done|simpl; lia]).
  pose proof (Z.mod_pos_bound (shardingfn key) (Z.of_nat (length stores))).
  lia.
Qed.

Lemma shard_index stores (shardingfn : Key -> Z) key w :
  stores ≠ [] ->
  ShardedDatastore.shard stores shardingfn key w =
    Ret (Z.to_nat (shardingfn key `mod` Z.of_nat (length stores))) w.
Proof. by destruct stores. Qed.

Lemma shardDatastore_picks stores (shardingfn : Key -> Z) key store w :
  stores ≠ [] ->
  stores !! Z.to_nat (shardingfn key `mod` Z.of_nat (length stores))
    = Some store ->
  ShardedDatastore.shardDatastore stores shardingfn key w = Ret store w.
Proof.
  intros Hne Hstore. unfold ShardedDatastore.shardDatastore, bind.
  rewrite shard_index by done. by rewrite Hstore.
Qed.

(** X11: the sharded store routes each of [get], [put], [delete] and
    [contains] to exactly one shard, the one at the index
    [shardingfn(key) mod len], which is within the list whatever the sign
    of the hash; without shards each of them raises [ZeroDivisionError]. *)
Theorem sharded_routes_to_one_shard stores (shardingfn : Key -> Z) key value w :
  match stores with
  | [] =>
      ShardedDatastore.get stores shardingfn key w = Raise ZeroDivisionError w /\
      ShardedDatastore.put stores shardingfn key value w
        = Raise ZeroDivisionError w /\
      ShardedDatastore.delete stores shardingfn key w
        = Raise ZeroDivisionError w /\
      ShardedDatastore.contains stores shardingfn key w
        = Raise ZeroDivisionError w
  | _ :: _ =>
      exists store,
        stores !! Z.to_nat (shardingfn key `mod` Z.of_nat (length stores))
          = Some store /\
        ShardedDatastore.shardDatastore stores shardingfn key w = Ret store w /\
        ShardedDatastore.get stores shardingfn key w = get store key w /\
        ShardedDatastore.put stores shardingfn key value w
          = put store key value w /\
        ShardedDatastore.delete stores shardingfn key w = delete store key w /\
        ShardedDatastore.contains stores shardingfn key w
          = contains store key w
  end.
Proof.
  destruct stores as [|s0 rest] eqn:Hst; [done|]. rewrite <- Hst.
  assert (Hne : stores ≠ []) by (by rewrite Hst).
  destruct (lookup_lt_is_Some_2 stores _ (shard_in_range stores shardingfn key Hne))
    as [store Hstore].
  exists store. split; [done|].
  assert (Hsd : ShardedDatastore.shardDatastore stores shardingfn key w
                = Ret store w) by (by apply shardDatastore_picks).
  split; [done|].
  unfold ShardedDatastore.get, ShardedDatastore.put, ShardedDatastore.delete,
    ShardedDatastore.contains, bind.
  by rewrite Hsd.
Qed.

End Routing.

(** ** The sharded store over dict stores *)

Section ShardedDicts.
Context {V : Type}.
Implicit Types (h : gmap nat (gmap string (gmap Key V))) (key : Key).
Implicit Types (id : nat) (ids : list nat).

Import basic.

(** X12: over dict stores, a [put] through the sharded store writes the
    one shard the key hashes to and changes nothing else; a [get] and a
    [contains] through the sharded store then find the value there and
    change the heap no more. *)
Theorem sharded_put_then_get_on_dicts ids (shardingfn : Key -> Z) key (v : V) h :
  ids ≠ [] ->
  allocated h ids ->
  exists id h',
    ids !! Z.to_nat (shardingfn key `mod` Z.of_nat (length ids)) = Some id /\
    ShardedDatastore.put (dict_stores ids) shardingfn key (Some v) h
      = Ret tt h' /\
    (forall id' key',
       held h' key' id' =
         if decide (id' = id /\ key' = key) then Some v
         else held h key' id') /\
    ShardedDatastore.get (dict_stores ids) shardingfn key h'
      = Ret (Some v) h' /\
    ShardedDatastore.contains (dict_stores ids) shardingfn key h'
      = Ret true h'.
Proof.
  intros Hne Halloc.
  assert (Hne' : dict_stores (V := V) ids ≠ []) by (by destruct ids).
  assert (Hlen : length ids ≠ 0%nat) by (by destruct ids).
  destruct (lookup_lt_is_Some_2 ids _
              (hash_index_in_range (length ids) (shardingfn key) Hlen))
    as [id Hid].
  assert (Hpick : forall w,
            ShardedDatastore.shardDatastore (dict_stores (V := V) ids)
              shardingfn key w
            = Ret (DictDatastore.new id) w).
  { intros w. apply shardDatastore_picks; [done|].
    unfold dict_stores. rewrite length_fmap, list_lookup_fmap. by rewrite Hid. }
  assert (Hcell : is_Some (h !! id)).
  { eapply Forall_forall in Halloc; [exact Halloc|].
    by eapply list_elem_of_lookup_2. }
  destruct Hcell as [it Hit].
  set (it' := <[str (path key) :=
                 <[key := v]> (default ∅ (it !! str (path key)))]> it).
  assert (Hs : stored it' key = Some v).
  { unfold it'. rewrite stored_after_insert. by rewrite decide_True. }
  assert (Hw : with_collection key it' = it').
  { eapply with_collection_present. unfold it'. apply lookup_insert_eq. }
  exists id, (<[id := it']> h). split; [done|]. split; [|split; [|split]].
  - unfold ShardedDatastore.put, bind. rewrite Hpick.
    by rewrite (cell_put h id it key v Hit).
  - intros id' key'. rewrite held_insert. unfold it'.
    rewrite stored_after_insert.
    destruct (decide (id' = id)) as [->|Hn].
    + destruct (decide (key' = key)) as [->|Hk].
      * by rewrite decide_True.
      * rewrite decide_False by (by intros [_ ?]). unfold held. by rewrite Hit.
    + by rewrite decide_False by (by intros [? _]).
  - unfold ShardedDatastore.get, bind. rewrite Hpick.
    rewrite (cell_get _ id it' key (lookup_insert_eq _ _ _)).
    by rewrite Hs, Hw, insert_insert_eq.
  - unfold ShardedDatastore.contains, bind. rewrite Hpick.
    rewrite (cell_contains _ id it' key (lookup_insert_eq _ _ _)).
    rewrite Hs, Hw, insert_insert_eq.
    by rewrite bool_decide_eq_true_2 by eauto.
Qed.

(** X16: around a dict store the legacy shim's inherited [contains] has
    the outcome of the dict store's own [contains], answer and heap
    alike. *)
Theorem shim_contains_agrees_on_dict (shim_id id : nat) key h :
  contains (ShimDatastore.new shim_id (DictDatastore.new (V := V) id)) key h =
  contains (DictDatastore.new id) key h.
Proof.
  change (contains (ShimDatastore.new shim_id (DictDatastore.new id)) key h)
    with (Datastore_contains (get (DictDatastore.new (V := V) id)) key h).
  unfold Datastore_contains, bind.
  destruct (h !! id) as [it|] eqn:Hid.
  - rewrite (cell_get h id it key Hid), (cell_contains h id it key Hid).
    unfold ret. f_equal. by destruct (stored it key).
  - simpl. unfold on_object. by rewrite Hid.
Qed.

End ShardedDicts.

Lemma sharded_put_then_get_on_dicts_witness :
  exists id h',
    basic.ShardedDatastore.put (dict_stores [0; 1; 2]%nat) (fun _ => (-5))
      examples.key_ab (Some 7%nat) examples.three_empty = Ret tt h' /\
    held h' examples.key_ab id = Some 7%nat.
Proof.
  destruct (sharded_put_then_get_on_dicts [0; 1; 2]%nat (fun _ => (-5))
              examples.key_ab 7%nat examples.three_empty)
    as (id & h' & _ & Hput & Hheld & _).
  - done.
  - repeat constructor; eexists; reflexivity.
  - exists id, h'. split; [exact Hput|]. rewrite Hheld.
    by rewrite decide_True.
Defined.

(** ** The registry of a collection *)

Section Registry.
Import basic.DatastoreCollection.
Implicit Types (h : pyheap) (members : list pyobj) (self : instance).

Lemma heap_eta h : mkHeap (lists h) (fresh h) = h.
Proof. by destruct h. Qed.

Lemma init_list_object h loc members :
  lists h !! loc = Some members ->
  forallb isinstance_Datastore members = true ->
  __init__ (list_object loc) h = Ret (mkInstance loc) h.
Proof.
  intros Hloc Hall. unfold __init__, bind, ret, list_read.
  by rewrite Hloc, Hall.
Qed.

(** X13: a collection built from a list object keeps that very list.  The
    constructor leaves the heap as it is, and a store appended through the
    collection shows in the caller's list. *)
Theorem collection_shares_the_callers_list h loc members (d : nat) :
  lists h !! loc = Some members ->
  forallb isinstance_Datastore members = true ->
  __init__ (list_object loc) h = Ret (mkInstance loc) h /\
  (self <~ __init__ (list_object loc) ;;
   appendDatastore self (datastore_ref d) ;;;
   list_read loc) h =
    Ret (members ++ [datastore_ref d])
        (mkHeap (<[loc := members ++ [datastore_ref d]]> (lists h)) (fresh h)).
Proof.
  intros Hloc Hall. split; [by eapply init_list_object|].
  unfold bind. rewrite (init_list_object h loc members Hloc Hall).
  unfold appendDatastore, list_append, list_read. simpl.
  rewrite Hloc. simpl. by rewrite lookup_insert_eq.
Qed.

(** X14: a collection built from an iterable that is not a list gets a
    list of its own at an unused address: after construction and an append
    every list the heap had before is as it was. *)
Theorem collection_copies_other_iterables h members (d : nat) :
  lists h !! fresh h = None ->
  forallb isinstance_Datastore members = true ->
  exists h',
    (self <~ __init__ (iterable members) ;;
     appendDatastore self (datastore_ref d) ;;;
     ret self) h = Ret (mkInstance (fresh h)) h' /\
    lists h' !! fresh h = Some (members ++ [datastore_ref d]) /\
    (forall loc, loc ≠ fresh h -> lists h' !! loc = lists h !! loc).
Proof.
  intros Hfresh Hall.
  unfold bind, __init__, bind, list_copy, list_read, ret. simpl.
  rewrite lookup_insert_eq, Hall.
  unfold appendDatastore, list_append. simpl. rewrite lookup_insert_eq.
  eexists. split; [done|]. simpl. split.
  - by rewrite lookup_insert_eq.
  - intros loc Hne. by rewrite !lookup_insert_ne.
Qed.


(** X17: [insertDatastore(index, store)] with an index within the list puts
    the store at that index, where [datastore(index)] then returns it; the
    members before the index stay where they were and the others move up
    by one.  [datastore] raises [IndexError] past the end of the list. *)
Theorem collection_insert_then_index self (index d : nat) h members :
  lists h !! _stores self = Some members ->
  (index <= length members)%nat ->
  exists h' members',
    insertDatastore self index (datastore_ref d) h = Ret tt h' /\
    lists h' !! _stores self = Some members' /\
    datastore self index h' = Ret (datastore_ref d) h' /\
    datastore self (length members') h' = Raise IndexError h' /\
    length members' = S (length members) /\
    (forall j, (j < index)%nat -> members' !! j = members !! j) /\
    (forall j, (index <= j)%nat -> members' !! S j = members !! j).
Proof.
  intros Hloc Hindex.
  unfold insertDatastore, list_insert_at. simpl. rewrite Hloc.
  set (members' := take index members ++ datastore_ref d :: drop index members).
  assert (Hlen : length (take index members) = index).
  { rewrite length_take. lia. }
  assert (Hat : members' !! index = Some (datastore_ref d)).
  { unfold members'. rewrite lookup_app_r by lia.
    by rewrite Hlen, Nat.sub_diag. }
  assert (Hlen' : length members' = S (length members)).
  { unfold members'. rewrite length_app. simpl. rewrite length_take, length_drop.
    lia. }
  eexists _, members'. split; [done|]. simpl.
  split; [by rewrite lookup_insert_eq|].
  unfold datastore, bind, list_read. simpl. rewrite lookup_insert_eq, Hat.
  split; [done|]. split.
  { rewrite (lookup_ge_None_2 members' (length members')) by lia. done. }
  split; [done|]. split.
  - intros j Hj. unfold members'. rewrite lookup_app_l by lia.
    by rewrite lookup_take_lt by lia.
  - intros j Hj. unfold members'. rewrite lookup_app_r by lia.
    rewrite Hlen. replace (S j - index)%nat with (S (j - index)) by lia.
    simpl. rewrite lookup_drop. f_equal. lia.
Qed.

End Registry.

(** ** Stores that keep nothing, adapters, and mapped services *)

Section Wrappers.
Context {W B : Type}.

Lemma run_query_nil (q : Query B) : c_items (run_query q []) = [].
Proof.
  unfold run_query, apply_order, apply_filter. rewrite filter_nil. simpl.
  destruct (q_orders q); simpl; rewrite drop_nil;
    destruct (q_limit q); by rewrite ?take_nil.
Qed.

(** X18: the null store keeps nothing: after any [put], [get] of any key
    still raises [KeyError] and [contains] answers false; [delete] returns
    for every key, [query] yields nothing, and none of them changes the
    heap. *)
Theorem null_store_keeps_nothing (id : nat) (key key' : Key)
    (value : stream.ArbitraryReceiveStream B) (q : Query B) (w : W) :
  let null := binarystore.NullDatastore.new (B := B) id in
  (binarystore.Datastore_put null key value ;;;
   binarystore.get null key') w = Raise KeyError w /\
  (binarystore.Datastore_put null key value ;;;
   binarystore.contains null key') w = Ret false w /\
  binarystore.delete null key w = Ret tt w /\
  c_items <$> (match binarystore.query null q w with
               | Ret cursor _ => Some cursor
               | Raise _ _ => None
               end) = Some [] /\
  heap_of (binarystore.query null q w) = w.
Proof.
  repeat split.
  change (Some (c_items (run_query q [])) = Some []).
  by rewrite run_query_nil.
Qed.

(** X19: adapters stacked to any depth around a binary store are
    transparent: each of [get], [put], [delete], [query] and [contains] on
    the stack is that operation of the store, [put] included although each
    layer passes the value on as a stream. *)
Theorem adapter_stack_is_transparent (depth : nat)
    (d : binarystore.Datastore W B) :
  binarystore.get (adapter_stack depth d) = binarystore.get d /\
  (forall key value,
     binarystore.Datastore_put (adapter_stack depth d) key value =
     binarystore.Datastore_put d key value) /\
  binarystore.delete (adapter_stack depth d) = binarystore.delete d /\
  binarystore.query (adapter_stack depth d) = binarystore.query d /\
  binarystore.contains (adapter_stack depth d) = binarystore.contains d.
Proof.
  induction depth as [|depth (Hg & Hp & Hd & Hq & Hc)]; [done|].
  change (adapter_stack (S depth) d)
    with (binarystore.Adapter.new 0 (adapter_stack depth d)).
  split; [exact Hg|]. split; [|by repeat split].
  intros key value. rewrite <- Hp. reflexivity.
Qed.

End Wrappers.

Section MappedService.
Context {W SK V : Type}.
Import basic.InterfaceMappingDatastore.

Lemma mapped_operations
    (service : gmap string (attribute (W := W) (SK := SK) (V := V)))
    (get_name put_name delete_name : string) (key_fn : Key -> SK)
    (get_op put_op delete_op : attribute (W := W) (SK := SK) (V := V)) :
  service !! get_name = Some get_op ->
  service !! put_name = Some put_op ->
  service !! delete_name = Some delete_op ->
  exists self,
    __init__ service get_name put_name delete_name key_fn = built self /\
    (forall key, get self key = call1 get_op (key_fn key)) /\
    (forall key value,
       put self key value = (call2 put_op (key_fn key) value ;;; ret tt)) /\
    (forall key,
       delete self key = (call1 delete_op (key_fn key) ;;; ret tt)).
Proof.
  intros Hg Hp Hd. unfold __init__. rewrite Hg, Hp, Hd.
  eexists. split; [done|].
  repeat split; intros; reflexivity.
Qed.

(** X20: the constructor of the interface mapping store succeeds exactly
    when the service has the three attributes it is told to use, and
    otherwise ends in the [AttributeError] of the first missing one, in
    the order get, put, delete.  On the instance each operation calls the
    attribute its name resolved to, on the converted key; [put] and
    [delete] return nothing, whatever the service method returned. *)
Theorem interface_mapping_binds_by_name
    (service : gmap string (attribute (W := W) (SK := SK) (V := V)))
    (get_name put_name delete_name : string) (key_fn : Key -> SK) :
  match service !! get_name, service !! put_name, service !! delete_name with
  | Some get_op, Some put_op, Some delete_op =>
      exists self,
        __init__ service get_name put_name delete_name key_fn = built self /\
        (forall key, get self key = call1 get_op (key_fn key)) /\
        (forall key value,
           put self key value = (call2 put_op (key_fn key) value ;;; ret tt)) /\
        (forall key,
           delete self key = (call1 delete_op (key_fn key) ;;; ret tt))
  | None, _, _ =>
      __init__ service get_name put_name delete_name key_fn
        = AttributeError get_name
  | Some _, None, _ =>
      __init__ service get_name put_name delete_name key_fn
        = AttributeError put_name
  | Some _, Some _, None =>
      __init__ service get_name put_name delete_name key_fn
        = AttributeError delete_name
  end.
Proof.
  destruct (service !! get_name) as [g|] eqn:Hg;
    [|by unfold __init__; rewrite Hg].
  destruct (service !! put_name) as [p|] eqn:Hp;
    [|by unfold __init__; rewrite Hg, Hp].
  destruct (service !! delete_name) as [d|] eqn:Hd;
    [|by unfold __init__; rewrite Hg, Hp, Hd].
  by apply mapped_operations.
Qed.

(** X21: through the interface mapping store, what [put] hands to the
    service's put method under the converted key is what [get] asks the
    service's get method for: when the service returns on a get what it was
    given on a put, so does the store, for every key with the same
    conversion. *)
Theorem interface_mapping_round_trip
    (service : gmap string (attribute (W := W) (SK := SK) (V := V)))
    (get_name put_name delete_name : string) (key_fn : Key -> SK)
    self g p key key' (v : V) r (w w' : W) :
  __init__ service get_name put_name delete_name key_fn = built self ->
  service !! get_name = Some (method1 g) ->
  service !! put_name = Some (method2 p) ->
  p (key_fn key) (Some v) w = Ret r w' ->
  g (key_fn key) w' = Ret (Some v) w' ->
  key_fn key' = key_fn key ->
  (put self key (Some v) ;;; get self key') w = Ret (Some v) w'.
Proof.
  intros Hinit Hg Hp Hput Hget Hkey.
  destruct (service !! delete_name) as [d|] eqn:Hd;
    [|by unfold __init__ in Hinit; rewrite Hg, Hp, Hd in Hinit].
  destruct (mapped_operations service get_name put_name delete_name key_fn
              _ _ _ Hg Hp Hd) as (self' & Hinit' & Hget' & Hput' & _).
  rewrite Hinit in Hinit'. injection Hinit' as ->.
  unfold bind at 1. rewrite Hput', Hget'. unfold bind, ret. simpl.
  by rewrite Hput, Hkey, Hget.
Qed.

End MappedService.

Lemma interface_mapping_round_trip_witness :
  exists self,
    basic.InterfaceMappingDatastore.__init__ table_service "get" "set"
      "delete" str = basic.InterfaceMappingDatastore.built self /\
    (basic.InterfaceMappingDatastore.put self examples.key_ab (Some 7%nat) ;;;
     basic.InterfaceMappingDatastore.get self examples.key_ab) ∅
      = Ret (Some 7%nat) {["/a/b" := 7%nat]}.
Proof.
  eexists. split; [reflexivity|].
  eapply (interface_mapping_round_trip table_service "get" "set" "delete" str);
    reflexivity.
Defined.

(** ** Tiered loops over arbitrary stores *)

Section TieredStops.
Context {W V : Type}.
Implicit Types (pre post : list (basic.Datastore W V)) (key : Key).

Import basic.

Lemma contains_loop_all_false pre key w w1 :
  each_returns (fun store => contains store key) false pre w w1 ->
  forall rest,
    TieredDatastore.contains_loop (pre ++ rest) key w =
    TieredDatastore.contains_loop rest key w1.
Proof.
  induction 1 as [w|s rest' w wa wb Hs _ IH]; intros rest; [done|].
  rewrite <- app_comm_cons, contains_loop_cons, Hs. apply IH.
Qed.

Lemma delete_loop_all pre key w w1 :
  each_returns (fun store => delete store key) tt pre w w1 ->
  forall rest,
    TieredDatastore.delete_loop (pre ++ rest) key w =
    TieredDatastore.delete_loop rest key w1.
Proof.
  induction 1 as [w|s rest' w wa wb Hs _ IH]; intros rest; [done|].
  rewrite <- app_comm_cons, delete_loop_cons, Hs. apply IH.
Qed.

(** X22: the tiered [contains] asks the tiers in order and stops at the
    first that answers true: when the tiers before it answered false, the
    call returns true on the heap that tier left, whatever the later tiers
    are; when all answer false it returns false; and an error of a tier
    that is reached is the error of the call. *)
Theorem tiered_contains_stops_at_first_true pre key w w1 :
  each_returns (fun store => contains store key) false pre w w1 ->
  TieredDatastore.contains pre key w = Ret false w1 /\
  (forall store post w2,
     contains store key w1 = Ret true w2 ->
     TieredDatastore.contains (pre ++ store :: post) key w = Ret true w2) /\
  (forall store post e w2,
     contains store key w1 = Raise e w2 ->
     TieredDatastore.contains (pre ++ store :: post) key w = Raise e w2).
Proof.
  intros Hpre. unfold TieredDatastore.contains.
  pose proof (contains_loop_all_false pre key w w1 Hpre) as Hloop.
  split; [|split].
  - rewrite <- (app_nil_r pre). by rewrite Hloop.
  - intros store post w2 Hs. by rewrite Hloop, contains_loop_cons, Hs.
  - intros store post e w2 Hs. by rewrite Hloop, contains_loop_cons, Hs.
Qed.

(** X23: the tiered [delete] deletes from the tiers in order.  When all of
    them return, so does the call; when the tiers before some tier return
    and that tier fails, whatever the error, the call fails with it on the
    heap those deletes left: the earlier tiers stay deleted and the later
    tiers are not touched. *)
Theorem tiered_delete_stops_at_failure pre key w w1 :
  each_returns (fun store => delete store key) tt pre w w1 ->
  TieredDatastore.delete pre key w = Ret tt w1 /\
  (forall store post e w2,
     delete store key w1 = Raise e w2 ->
     TieredDatastore.delete (pre ++ store :: post) key w = Raise e w2).
Proof.
  intros Hpre. unfold TieredDatastore.delete.
  pose proof (delete_loop_all pre key w w1 Hpre) as Hloop.
  split.
  - rewrite <- (app_nil_r pre). by rewrite Hloop.
  - intros store post e w2 Hs. by rewrite Hloop, delete_loop_cons, Hs.
Qed.

End TieredStops.

Section MoreExamples.
Import basic examples.

Lemma tiered_contains_stops_at_first_true_witness :
  TieredDatastore.contains ([fast] ++ slow :: [failing_store 9 RuntimeError])
    key_ab only_slow = Ret true only_slow_probed.
Proof.
  destruct (tiered_contains_stops_at_first_true [fast] key_ab only_slow
              only_slow_probed) as (_ & Hstop & _).
  - apply (each_returns_cons _ _ _ _ _ only_slow_probed);
      [exact eq_refl|constructor].
  - apply Hstop. exact eq_refl.
Defined.

Lemma tiered_delete_stops_at_failure_witness :
  TieredDatastore.delete ([fast] ++ broken :: [slow]) key_ab both =
    Raise RuntimeError only_slow.
Proof.
  destruct (tiered_delete_stops_at_failure [fast] key_ab both only_slow)
    as (_ & Hstop).
  - apply (each_returns_cons _ _ _ _ _ only_slow); [exact eq_refl|constructor].
  - apply Hstop. reflexivity.
Defined.

Lemma collection_shares_the_callers_list_witness :
  (self <~ DatastoreCollection.__init__ (DatastoreCollection.list_object 0) ;;
   DatastoreCollection.appendDatastore self (DatastoreCollection.datastore_ref 7) ;;;
   DatastoreCollection.list_read 0) DatastoreCollection.module_heap =
    Ret [DatastoreCollection.datastore_ref 7]
        (DatastoreCollection.mkHeap
           (<[0%nat := [DatastoreCollection.datastore_ref 7]]>
              (DatastoreCollection.lists DatastoreCollection.module_heap)) 2).
Proof.
  apply (collection_shares_the_callers_list DatastoreCollection.module_heap
           0 [] 7); reflexivity.
Defined.

Lemma collection_copies_other_iterables_witness :
  exists h',
    (self <~ DatastoreCollection.__init__ (DatastoreCollection.iterable []) ;;
     DatastoreCollection.appendDatastore self (DatastoreCollection.datastore_ref 7) ;;;
     ret self) DatastoreCollection.module_heap
      = Ret (DatastoreCollection.mkInstance 2) h' /\
    DatastoreCollection.lists h' !! 0%nat = Some [].
Proof.
  destruct (collection_copies_other_iterables DatastoreCollection.module_heap
              [] 7) as (h' & Hrun & _ & Hframe); [reflexivity..|].
  exists h'. split; [exact Hrun|]. by rewrite Hframe.
Defined.


Lemma collection_insert_then_index_witness :
  exists h',
    DatastoreCollection.insertDatastore (DatastoreCollection.mkInstance 0) 0
      (DatastoreCollection.datastore_ref 7) DatastoreCollection.module_heap
      = Ret tt h' /\
    DatastoreCollection.datastore (DatastoreCollection.mkInstance 0) 0 h'
      = Ret (DatastoreCollection.datastore_ref 7) h'.
Proof.
  destruct (collection_insert_then_index (DatastoreCollection.mkInstance 0)
              0 7 DatastoreCollection.module_heap [])
    as (h' & members' & Hins & _ & Hat & _); [reflexivity|simpl; lia|].
  exists h'. split; [exact Hins|exact Hat].
Defined.

End MoreExamples.
